(** * ClearSeas-Enhanced: scroll-driven morphing choreography

    A shallow embedding of [MorphingTransitionSystem] and of the two
    variants of [ClearSeasEnhancedApplication].

    Conventions of the embedding:
    - in the methods, a JavaScript number is a real number ([R]) and
      [Math.sin], [Math.cos], [Math.PI], [Math.pow], [Math.max] and
      [Math.min] are [sin], [cos], [PI], [pow], [Rmax] and [Rmin].  The code
      computes in binary64, where every operation rounds, so a property is
      stated over [R] only in a form that the rounding leaves true: an
      order of calls, a target, a range with its closed bounds, a bound with
      a margin, the value at an argument at which the operations of the code
      are exact.  An equation that holds over [R] and fails in binary64 is
      not stated;
    - where the rounding decides, the arithmetic is that of the code:
      [Num64] gives [lerp] on the binary64 numbers ([PrimFloat.float], whose
      [+], [-] and [*] are those of IEEE 754 with rounding to nearest, as in
      JavaScript), and [Presets64] gives the presets as the literals of the
      code denote them;
    - [Math.random] reads the next element of a sequence of draws that is
      part of the browser state;
    - the DOM, the animation library (gsap with ScrollTrigger), the logger
      and the console are external: a call to one of them is recorded as an
      event, in the order in which the calls are made.  An assignment to a
      field of [visualizer.params] is recorded as well, and so is the entry
      into [disassembleCards], [morphVisualizer] and [assembleCards], so
      that a property can say which of them a handler called;
    - a method is a function from the object and the browser state to the
      new object, the new browser state and the events it emitted. *)

From Stdlib Require Import Reals Lra Psatz Lia.
From Stdlib Require Import List String Bool Arith ZArith.
From Stdlib Require Import DecimalString.
From Stdlib Require Floats.
Import ListNotations.

Set Implicit Arguments.

(** A decimal literal of the code denotes the binary64 number nearest to
    it, and so does a literal in [float_scope]. *)
Set Warnings "-inexact-float".

(** ** Numbers *)

Module Num.
Local Open Scope R_scope.

(** [lerp(a, b, t) { return a + (b - a) * t; }] *)
Definition lerp (a b t : R) : R := a + (b - a) * t.

(** [easeInOutCubic(t)]:
    [t < 0.5 ? 4 * t * t * t : 1 - Math.pow(-2 * t + 2, 3) / 2] *)
Definition easeInOutCubic (t : R) : R :=
  if Rlt_dec t 0.5 then 4 * t * t * t else 1 - (-2 * t + 2) ^ 3 / 2.

(** [easeOutBack(t)], with [c1 = 1.70158] and [c3 = c1 + 1]. *)
Definition easeOutBack (t : R) : R :=
  let c1 := 1.70158 in
  let c3 := c1 + 1 in
  1 + c3 * (t - 1) ^ 3 + c1 * (t - 1) ^ 2.

(** [Math.max(0, Math.min(1, v))] *)
Definition clamp01 (v : R) : R := Rmax 0 (Rmin 1 v).

End Num.

(** The same in the arithmetic of the code. *)
Module Num64.
Import Floats.
Local Open Scope float_scope.

(** [lerp(a, b, t) { return a + (b - a) * t; }] *)
Definition lerp (a b t : float) : float := a + (b - a) * t.



End Num64.

(** ** The DOM *)

(** A DOM element: the identity of the node and its [id] attribute. *)
Record Element : Type := mkElement {
  node : nat;
  elementId : string
}.

(** What the code asks of [document] and of an element. *)
Record Document : Type := mkDocument {
  getElementById : string -> option Element;
  (** [element.querySelectorAll(selector)], in document order *)
  querySelectorAll : Element -> string -> list Element;
  (** [document.querySelectorAll(selector)] *)
  documentQuerySelectorAll : string -> list Element
}.

(** ** Visualizer *)

(** A per-section preset, the [visualizerState] of a section. *)
Record VisualizerState : Type := mkVisualizerState {
  geometry : R;
  hue : R;
  intensity : R;
  chaos : R;
  speed : R;
  gridDensity : R
}.

(** The names of the fields of [visualizer.params] that the code assigns. *)
Inductive ParamName : Type :=
| P_geometry | P_hue | P_intensity | P_chaos | P_gridDensity
| P_morphFactor | P_rot4dXW | P_rot4dYW.

(** The fields of [visualizer.params] that the code reads or assigns. *)
Record Params : Type := mkParams {
  params_geometry : R;
  params_hue : R;
  params_intensity : R;
  params_chaos : R;
  params_gridDensity : R;
  params_morphFactor : R;
  params_rot4dXW : R;
  params_rot4dYW : R
}.

(** A [WorkingQuantumVisualizer] object as far as this code looks at it:
    [gl] is the WebGL context ([false] when it is absent) and [params] the
    shader parameter object ([None] when the field is absent). *)
Record Visualizer : Type := mkVisualizer {
  gl : bool;
  params : option Params
}.

(** ** Sections *)

(** The [config] argument of [registerSection].  [cardSelector] and
    [layout] may be absent.  The entry stored for a section ends with the
    spread [...config], which copies every own property of [config] over
    the fields written before it, so the own properties of [config] that
    carry the name of a computed field ([section], [cards], [cardCount])
    are part of the argument as well. *)
Record Config : Type := mkConfig {
  cfg_cardSelector : option string;
  cfg_layout : option string;
  cfg_visualizerState : VisualizerState;
  cfg_section : option Element;
  cfg_cards : option (list Element);
  cfg_cardCount : option nat
}.

(** The entry of [sectionConfigs] for one section. *)
Record SectionConfig : Type := mkSectionConfig {
  section : Element;
  cards : list Element;
  layout : string;
  cardCount : nat;
  visualizerState : VisualizerState;
  cardSelector : option string
}.

(** A JavaScript [Map] with string keys: [keys()] lists the keys in the
    order of their first insertion, and [set] on a key that is present
    replaces the value where it stands. *)
Definition JSMap (V : Type) : Type := list (string * V).

Fixpoint map_get {V : Type} (k : string) (m : JSMap V) : option V :=
  match m with
  | [] => None
  | (k', v) :: rest => if String.eqb k' k then Some v else map_get k rest
  end.

Fixpoint map_set {V : Type} (k : string) (v : V) (m : JSMap V) : JSMap V :=
  match m with
  | [] => [(k, v)]
  | (k', v') :: rest =>
      if String.eqb k' k then (k', v) :: rest else (k', v') :: map_set k v rest
  end.

Definition map_keys {V : Type} (m : JSMap V) : list string := map fst m.

(** ** Events *)

(** The properties that the code passes to [gsap.set]; [FilterBlur] with
    value [v] stands for [filter: `blur(${v}px)`]. *)
Inductive StyleProp : Type :=
| X | Y | Rotation | Scale | Opacity | FilterBlur.

Definition Vars : Type := list (StyleProp * R).

(** The scroll trigger of one morph transition.  The callbacks [onEnter]
    and [onUpdate] close over [fromConfig] and [toConfig]; the record keeps
    the two captured entries. *)
Record MorphTrigger : Type := mkMorphTrigger {
  trigger : Element;
  triggerStart : string;
  triggerEnd : string;
  scrub : R;
  markers : bool;
  capturedFrom : SectionConfig;
  capturedTo : SectionConfig
}.

(** The scroll trigger of one text element of [setupTextScrollOff]; its
    [onLeave] callback fades the element out with [gsap.to]. *)
Record TextTrigger : Type := mkTextTrigger {
  textTrigger : Element;
  textStart : string;
  textEnd : string;
  textScrub : R
}.

(** The entry of a method whose calls the properties below speak about. *)
Inductive Call : Type :=
| Call_disassembleCards (cs : list Element) (progress : R)
| Call_morphVisualizer (fromState toState : VisualizerState) (progress : R)
| Call_assembleCards (cs : list Element) (progress : R).

Inductive Event : Type :=
| ConsoleLog (msg : string)
| ConsoleWarn (msg : string)
| ConsoleError (msg : string)
| LoggerInfo (msg : string)
| LoggerWarn (msg : string)
| LoggerError (msg : string) (error : string)
| GsapSet (target : Element) (vars : Vars)
| GsapTimeline (st : MorphTrigger)
| GsapTo (st : TextTrigger)
| ParamWrite (name : ParamName) (value : R)
| Invoke (c : Call)
| NewVisualizer (canvasId : string)
| VisualizerRender
| RequestAnimationFrame
| DispatchEvent (type : string).

(** ** Objects and the browser *)

(** A [MorphingTransitionSystem] object.  The [gsap] and [ScrollTrigger]
    fields hold the animation library, whose calls are events. *)
Record MorphingTransitionSystem : Type := mkSystem {
  visualizer : option Visualizer;
  sectionConfigs : JSMap SectionConfig
}.

(** The state of the page outside the objects of this code: the document
    and the draws that [Math.random] has still to return. *)
Record Browser : Type := mkBrowser {
  document : Document;
  randoms : nat -> R;
  drawn : nat
}.

Record State : Type := mkState {
  self : MorphingTransitionSystem;
  browser : Browser
}.

(** A method body: it returns a value, the new state and the events it
    emitted, oldest first. *)
Definition M (A : Type) : Type := State -> A * State * list Event.

Definition ret {A : Type} (a : A) : M A := fun st => (a, st, []).

Definition bind {A B : Type} (m : M A) (k : A -> M B) : M B :=
  fun st =>
    let '(a, st1, ev1) := m st in
    let '(b, st2, ev2) := k a st1 in
    (b, st2, ev1 ++ ev2).

Declare Scope method_scope.
Delimit Scope method_scope with method.
Notation "x <- m ;; k" := (bind m (fun x => k))
  (at level 61, m at next level, right associativity) : method_scope.
Notation "m ;; k" := (bind m (fun _ => k))
  (at level 61, right associativity) : method_scope.
Local Open Scope method_scope.

Definition emit (e : Event) : M unit := fun st => (tt, st, [e]).
Definition getState : M State := fun st => (st, st, []).
Definition putSelf (s : MorphingTransitionSystem) : M unit :=
  fun st => (tt, mkState s (browser st), []).

Definition state_of {A : Type} (r : A * State * list Event) : State := snd (fst r).
Definition events_of {A : Type} (r : A * State * list Event) : list Event := snd r.

(** [Math.random()] *)
Definition Math_random : M R :=
  fun st =>
    let b := browser st in
    (randoms b (drawn b),
     mkState (self st) (mkBrowser (document b) (randoms b) (S (drawn b))),
     []).

Definition gsap_set (target : Element) (vars : Vars) : M unit :=
  emit (GsapSet target vars).

(** [list.forEach((a, i) => f(a, i))], from index [i]. *)
Fixpoint forEach_from {A : Type} (l : list A) (i : nat) (f : A -> nat -> M unit)
  : M unit :=
  match l with
  | [] => ret tt
  | a :: rest => f a i ;; forEach_from rest (S i) f
  end.

Definition forEach {A : Type} (l : list A) (f : A -> nat -> M unit) : M unit :=
  forEach_from l 0 f.

(** Field access and assignment on [visualizer.params]. *)
Definition get_param (n : ParamName) (p : Params) : R :=
  match n with
  | P_geometry => params_geometry p
  | P_hue => params_hue p
  | P_intensity => params_intensity p
  | P_chaos => params_chaos p
  | P_gridDensity => params_gridDensity p
  | P_morphFactor => params_morphFactor p
  | P_rot4dXW => params_rot4dXW p
  | P_rot4dYW => params_rot4dYW p
  end.

Definition set_param (n : ParamName) (v : R) (p : Params) : Params :=
  match n with
  | P_geometry =>
      mkParams v (params_hue p) (params_intensity p) (params_chaos p)
        (params_gridDensity p) (params_morphFactor p) (params_rot4dXW p) (params_rot4dYW p)
  | P_hue =>
      mkParams (params_geometry p) v (params_intensity p) (params_chaos p)
        (params_gridDensity p) (params_morphFactor p) (params_rot4dXW p) (params_rot4dYW p)
  | P_intensity =>
      mkParams (params_geometry p) (params_hue p) v (params_chaos p)
        (params_gridDensity p) (params_morphFactor p) (params_rot4dXW p) (params_rot4dYW p)
  | P_chaos =>
      mkParams (params_geometry p) (params_hue p) (params_intensity p) v
        (params_gridDensity p) (params_morphFactor p) (params_rot4dXW p) (params_rot4dYW p)
  | P_gridDensity =>
      mkParams (params_geometry p) (params_hue p) (params_intensity p) (params_chaos p)
        v (params_morphFactor p) (params_rot4dXW p) (params_rot4dYW p)
  | P_morphFactor =>
      mkParams (params_geometry p) (params_hue p) (params_intensity p) (params_chaos p)
        (params_gridDensity p) v (params_rot4dXW p) (params_rot4dYW p)
  | P_rot4dXW =>
      mkParams (params_geometry p) (params_hue p) (params_intensity p) (params_chaos p)
        (params_gridDensity p) (params_morphFactor p) v (params_rot4dYW p)
  | P_rot4dYW =>
      mkParams (params_geometry p) (params_hue p) (params_intensity p) (params_chaos p)
        (params_gridDensity p) (params_morphFactor p) (params_rot4dXW p) v
  end.

(** The parameter object of the system's visualizer, when both exist:
    the guard [!this.visualizer || !this.visualizer.params] fails on it. *)
Definition visualizer_params (s : MorphingTransitionSystem) : option Params :=
  match visualizer s with
  | Some v => params v
  | None => None
  end.

(** [params.<n> = v], on the parameter object of the system's visualizer. *)
Definition assign_param (n : ParamName) (v : R) : M unit :=
  fun st =>
    match visualizer (self st) with
    | Some vis =>
        match params vis with
        | Some p =>
            (tt,
             mkState
               (mkSystem (Some (mkVisualizer (gl vis) (Some (set_param n v p))))
                  (sectionConfigs (self st)))
               (browser st),
             [ParamWrite n v])
        | None => (tt, st, [])
        end
    | None => (tt, st, [])
    end.

(** [params.<n> += d] *)
Definition add_to_param (n : ParamName) (d : R) : M unit :=
  st <- getState ;;
  match visualizer_params (self st) with
  | Some p => assign_param n (get_param n p + d)
  | None => ret tt
  end.

(** ** MorphingTransitionSystem *)

Module MTS.
Import Num.
Local Open Scope R_scope.

Definition defaultCardSelector : string := ".signal-card, .card, .capability-card".

(** [new MorphingTransitionSystem(visualizer, gsap)] *)
Definition constructor (v : option Visualizer) (b : Browser) : State * list Event :=
  (mkState (mkSystem v []) b,
   [ConsoleLog "🔄 MorphingTransitionSystem initialized"]).

(** [a || b] on an optional string: the empty string is falsy. *)
Definition or_string (a : option string) (b : string) : string :=
  match a with
  | Some s => if String.eqb s "" then b else s
  | None => b
  end.

(** The spread [...config] at the end of the entry: each own property of
    [config] replaces the field of the same name. *)
Definition spread_config (config : Config) (e : SectionConfig) : SectionConfig :=
  mkSectionConfig
    (match cfg_section config with Some s => s | None => section e end)
    (match cfg_cards config with Some c => c | None => cards e end)
    (match cfg_layout config with Some l => l | None => layout e end)
    (match cfg_cardCount config with Some n => n | None => cardCount e end)
    (cfg_visualizerState config)
    (match cfg_cardSelector config with Some s => Some s | None => cardSelector e end).

Definition string_of_nat (n : nat) : string :=
  NilZero.string_of_uint (Nat.to_uint n).

Definition registerSection (sectionId : string) (config : Config) : M unit :=
  st <- getState ;;
  match getElementById (document (browser st)) sectionId with
  | None => emit (ConsoleWarn ("Section " ++ sectionId ++ " not found"))
  | Some sec =>
      let cs :=
        querySelectorAll (document (browser st)) sec
          (or_string (cfg_cardSelector config) defaultCardSelector) in
      let entry :=
        spread_config config
          (mkSectionConfig sec cs (or_string (cfg_layout config) "grid")
             (List.length cs) (cfg_visualizerState config) None) in
      putSelf (mkSystem (visualizer (self st))
                 (map_set sectionId entry (sectionConfigs (self st)))) ;;
      emit (ConsoleLog ("📝 Registered section: " ++ sectionId ++ " with "
                          ++ string_of_nat (List.length cs) ++ " cards"))
  end.

(** [onTransitionStart(fromConfig, toConfig)] *)
Definition onTransitionStart (fromConfig toConfig : SectionConfig) : M unit :=
  emit (ConsoleLog ("🎬 Starting morph: " ++ elementId (section fromConfig)
                      ++ " → " ++ elementId (section toConfig))) ;;
  forEach (cards toConfig) (fun card _ =>
    gsap_set card [(Opacity, 0); (Scale, 0.8); (FilterBlur, 8)]).

(** [disassembleCards(cards, progress)] *)
Definition disassembleCards (cs : list Element) (progress : R) : M unit :=
  emit (Invoke (Call_disassembleCards cs progress)) ;;
  forEach cs (fun card i =>
    let delay := INR i * 0.1 in
    let adjustedProgress := clamp01 (progress - delay) in
    let angle := (INR i / INR (List.length cs)) * PI * 2 in
    let distance := adjustedProgress * 200 in
    let x := cos angle * distance in
    let y := sin angle * distance in
    r <- Math_random ;;
    gsap_set card
      [(X, x);
       (Y, y);
       (Rotation, adjustedProgress * (r - 0.5) * 45);
       (Scale, 1 - adjustedProgress * 0.5);
       (Opacity, 1 - adjustedProgress);
       (FilterBlur, adjustedProgress * 12)]).

(** [morphVisualizer(fromState, toState, progress)] *)
Definition morphVisualizer (fromState toState : VisualizerState) (progress : R)
  : M unit :=
  emit (Invoke (Call_morphVisualizer fromState toState progress)) ;;
  st <- getState ;;
  match visualizer_params (self st) with
  | None => ret tt
  | Some _ =>
      let ease := easeInOutCubic progress in
      assign_param P_geometry (lerp (geometry fromState) (geometry toState) ease) ;;
      assign_param P_hue (lerp (hue fromState) (hue toState) ease) ;;
      assign_param P_intensity (lerp (intensity fromState) (intensity toState) ease) ;;
      assign_param P_chaos (lerp (chaos fromState) (chaos toState) ease) ;;
      assign_param P_gridDensity
        (lerp (gridDensity fromState) (gridDensity toState) ease) ;;
      assign_param P_morphFactor (sin (ease * PI)) ;;
      add_to_param P_rot4dXW (0.002 * ease) ;;
      add_to_param P_rot4dYW (0.0015 * ease)
  end.

(** [assembleCards(cards, progress)] *)
Definition assembleCards (cs : list Element) (progress : R) : M unit :=
  emit (Invoke (Call_assembleCards cs progress)) ;;
  forEach cs (fun card i =>
    let delay := INR i * 0.15 in
    let adjustedProgress := clamp01 (progress - delay) in
    let easedProgress := easeOutBack adjustedProgress in
    gsap_set card
      [(X, 0);
       (Y, 0);
       (Rotation, 0);
       (Scale, 0.8 + easedProgress * 0.2);
       (Opacity, easedProgress);
       (FilterBlur, (1 - easedProgress) * 8)] ;;
    if Rgt_dec easedProgress 0.5 then
      let contentProgress := (easedProgress - 0.5) / 0.5 in
      st <- getState ;;
      forEach (querySelectorAll (document (browser st)) card "h2, p, .signal-metadata")
        (fun el _ =>
           gsap_set el [(Opacity, contentProgress); (Y, (1 - contentProgress) * 20)])
    else ret tt).

(** [onTransitionProgress(fromConfig, toConfig, progress)] *)
Definition onTransitionProgress (fromConfig toConfig : SectionConfig) (progress : R)
  : M unit :=
  let fromCards := cards fromConfig in
  let toCards := cards toConfig in
  (if Rlt_dec progress 0.4 then
     let disassembleProgress := progress / 0.4 in
     disassembleCards fromCards disassembleProgress
   else ret tt) ;;
  (if Rge_dec progress 0.3 then
     if Rle_dec progress 0.7 then
       let morphProgress := (progress - 0.3) / 0.4 in
       morphVisualizer (visualizerState fromConfig) (visualizerState toConfig)
         morphProgress
     else ret tt
   else ret tt) ;;
  (if Rge_dec progress 0.6 then
     let assembleProgress := (progress - 0.6) / 0.4 in
     assembleCards toCards assembleProgress
   else ret tt).

(** The [scrollTrigger] of the timeline that [createMorphTransition]
    creates: [trigger: toSection], [start: 'top bottom'],
    [end: 'top center'], [scrub: 1], [markers: false] and the two callbacks
    over [fromConfig] and [toConfig]. *)
Definition scrollTrigger (fromConfig toConfig : SectionConfig) : MorphTrigger :=
  mkMorphTrigger (section toConfig) "top bottom" "top center" 1 false
    fromConfig toConfig.

(** [createMorphTransition(fromSectionId, toSectionId)] *)
Definition createMorphTransition (fromSectionId toSectionId : string) : M unit :=
  st <- getState ;;
  match map_get fromSectionId (sectionConfigs (self st)),
        map_get toSectionId (sectionConfigs (self st)) with
  | Some fromConfig, Some toConfig =>
      emit (GsapTimeline (scrollTrigger fromConfig toConfig)) ;;
      emit (ConsoleLog ("🔗 Morph transition: " ++ fromSectionId ++ " → "
                          ++ toSectionId))
  | _, _ => ret tt
  end.

(** The callbacks of the scroll trigger of a transition:
    [onEnter: () => this.onTransitionStart(fromConfig, toConfig)] and
    [onUpdate: (self) =>
       this.onTransitionProgress(fromConfig, toConfig, self.progress)]. *)
Definition onEnter (tr : MorphTrigger) : M unit :=
  onTransitionStart (capturedFrom tr) (capturedTo tr).

Definition onUpdate (tr : MorphTrigger) (progress : R) : M unit :=
  onTransitionProgress (capturedFrom tr) (capturedTo tr) progress.

(** [for (let i = lo; i < hi; i++) body(i)], for a body that does not
    assign [i]: the body runs for [lo], [lo + 1], ... below [hi]. *)
Definition for_range (lo hi : Z) (body : Z -> M unit) : M unit :=
  forEach (map (fun k => (lo + Z.of_nat k)%Z) (seq 0 (Z.to_nat (hi - lo))))
    (fun i _ => body i).

(** [sections[i]]: [None] is [undefined], which is the key of no entry. *)
Definition at_index (sections : list string) (i : Z) : option string :=
  if (i <? 0)%Z then None else nth_error sections (Z.to_nat i).

(** The body of the loop of [setupMorphingTransitions] at index [i]. *)
Definition setup_turn (sections : list string) (i : Z) : M unit :=
  match at_index sections i, at_index sections (i + 1) with
  | Some currentSectionId, Some nextSectionId =>
      createMorphTransition currentSectionId nextSectionId
  | _, _ => ret tt
  end.

(** [setupMorphingTransitions()] *)
Definition setupMorphingTransitions : M unit :=
  st <- getState ;;
  let sections := map_keys (sectionConfigs (self st)) in
  for_range 0 (Z.of_nat (List.length sections) - 1) (setup_turn sections) ;;
  emit (ConsoleLog "✅ Morphing transitions configured").

(** [setupTextScrollOff()] *)
Definition setupTextScrollOff : M unit :=
  st <- getState ;;
  let textElements :=
    documentQuerySelectorAll (document (browser st))
      "h1, h2.section-title, .hero-lede, .eyebrow" in
  forEach textElements (fun el _ =>
    emit (GsapTo (mkTextTrigger el "top center" "bottom top" 1))) ;;
  emit (ConsoleLog "📜 Text scroll-off animations configured").

(** [integrateWithOrthogonalChoreographer(orthogonalChoreographer)] *)
Definition integrateWithOrthogonalChoreographer : M unit :=
  emit (ConsoleLog "🔗 Integrating with OrthogonalScrollChoreographer").

End MTS.

(** ** ClearSeasEnhancedApplication *)

(** How a statement ends: normally with a value, or with a thrown error. *)
Inductive Completion (A : Type) : Type :=
| Normal (a : A)
| Throw (error : string).
Arguments Normal {A} a.
Arguments Throw {A} error.

(** A body that may throw.  The state it reached and the events it emitted
    before the throw are kept. *)
Definition T (S A : Type) : Type := S -> Completion A * S * list Event.

Definition tret {S A : Type} (a : A) : T S A := fun st => (Normal a, st, []).

Definition tbind {S A B : Type} (m : T S A) (k : A -> T S B) : T S B :=
  fun st =>
    let '(c, st1, ev1) := m st in
    match c with
    | Normal a => let '(c2, st2, ev2) := k a st1 in (c2, st2, ev1 ++ ev2)
    | Throw e => (Throw e, st1, ev1)
    end.

Definition throw {S A : Type} (e : string) : T S A := fun st => (Throw e, st, []).

Definition temit {S : Type} (e : Event) : T S unit := fun st => (Normal tt, st, [e]).

(** [try { body } catch (error) { handler(error) }] *)
Definition try_catch {S : Type} (body : T S unit) (handler : string -> T S unit)
  : T S unit :=
  fun st =>
    let '(c, st1, ev1) := body st in
    match c with
    | Normal a => (Normal a, st1, ev1)
    | Throw e => let '(c2, st2, ev2) := handler e st1 in (c2, st2, ev1 ++ ev2)
    end.

Declare Scope throwing_scope.
Delimit Scope throwing_scope with throwing.
Notation "x <- m ;; k" := (tbind m (fun x => k))
  (at level 61, m at next level, right associativity) : throwing_scope.
Notation "m ;; k" := (tbind m (fun _ => k))
  (at level 61, right associativity) : throwing_scope.

(** The hero, capabilities, research and contact presets of
    [registerSections]. *)
Module Presets.
Local Open Scope R_scope.

Definition hero : VisualizerState := mkVisualizerState 2 180 0.6 0.1 0.8 20.
Definition capabilities : VisualizerState := mkVisualizerState 7 280 0.7 0.2 1.0 30.
Definition research : VisualizerState := mkVisualizerState 5 200 0.9 0.4 1.3 45.
Definition contact : VisualizerState := mkVisualizerState 0 240 0.5 0.05 0.6 12.

End Presets.

(** The [geometry], [hue], [intensity], [chaos] and [gridDensity] of the
    same presets, as binary64 numbers. *)
Module Presets64.
Import Floats.
Local Open Scope float_scope.

Definition hero : list float := [2; 180; 0.6; 0.1; 20].
Definition capabilities : list float := [7; 280; 0.7; 0.2; 30].
Definition research : list float := [5; 200; 0.9; 0.4; 45].
Definition contact : list float := [0; 240; 0.5; 0.05; 12].


End Presets64.

(** The application of the integrated morphing system. *)
Module App.
Local Open Scope throwing_scope.

Record Application : Type := mkApplication {
  quantumVisualizer : option Visualizer;
  morphingSystem : option MorphingTransitionSystem;
  isInitialized : bool
}.

(** The page around the application.  [newWorkingQuantumVisualizer] is the
    constructor of the imported [WorkingQuantumVisualizer] class, whose
    source is outside this code: it returns the object or throws. *)
Record Page : Type := mkPage {
  newWorkingQuantumVisualizer : string -> Completion Visualizer;
  page_browser : Browser
}.

Record AppState : Type := mkAppState {
  app : Application;
  page : Page
}.

(** [new ClearSeasEnhancedApplication()] *)
Definition constructor (p : Page) : AppState * list Event :=
  (mkAppState (mkApplication None None false) p,
   [LoggerInfo "🌊 Clear Seas Solutions - Integrated Morphing System"]).

Definition getApp : T AppState Application := fun st => (Normal (app st), st, []).
Definition putApp (a : Application) : T AppState unit :=
  fun st => (Normal tt, mkAppState a (page st), []).

(** A call [this.morphingSystem.m(...)]: it throws a [TypeError] when the
    field is [null]. *)
Definition onMorphingSystem (m : M unit) : T AppState unit :=
  fun st =>
    match morphingSystem (app st) with
    | None => (Throw "TypeError", st, [])
    | Some s =>
        let r := m (mkState s (page_browser (page st))) in
        (Normal tt,
         mkAppState
           (mkApplication (quantumVisualizer (app st)) (Some (self (state_of r)))
              (isInitialized (app st)))
           (mkPage (newWorkingQuantumVisualizer (page st)) (browser (state_of r))),
         events_of r)
    end.

(** [registerSections()] *)
Definition registerSections : T AppState unit :=
  onMorphingSystem
    (MTS.registerSection "hero"
       (mkConfig (Some ".signal-card"%string) (Some "grid"%string) Presets.hero
          None None None)) ;;
  onMorphingSystem
    (MTS.registerSection "capabilities"
       (mkConfig (Some ".capability-card"%string) (Some "grid"%string)
          Presets.capabilities None None None)) ;;
  onMorphingSystem
    (MTS.registerSection "research"
       (mkConfig (Some ".card"%string) (Some "stack"%string) Presets.research
          None None None)) ;;
  onMorphingSystem
    (MTS.registerSection "contact"
       (mkConfig (Some ".contact-card"%string) (Some "flex"%string) Presets.contact
          None None None)) ;;
  temit (LoggerInfo "📝 Sections registered with morphing system").

(** The function [render] of [startRenderLoop], which the browser runs in
    a frame: it renders the visualizer, when there is one, and requests the
    next frame. *)
Definition render : T AppState unit :=
  a <- getApp ;;
  (match quantumVisualizer a with
   | Some _ => temit VisualizerRender
   | None => tret tt
   end) ;;
  temit RequestAnimationFrame.

(** [startRenderLoop()]: it requests the first frame. *)
Definition startRenderLoop : T AppState unit := temit RequestAnimationFrame.

(** The [try] block of [initialize]. *)
Definition initialize_body : T AppState unit :=
  temit (LoggerInfo "🌌 Creating WorkingQuantumVisualizer...") ;;
  temit (NewVisualizer "quantum-background") ;;
  v <- (fun st =>
          (newWorkingQuantumVisualizer (page st) "quantum-background"%string, st, [])) ;;
  a <- getApp ;;
  putApp (mkApplication (Some v) (morphingSystem a) (isInitialized a)) ;;
  (if negb (gl v) then throw "Failed to create WebGL context" else tret tt) ;;
  temit (LoggerInfo "✅ WorkingQuantumVisualizer created with WebGL context") ;;
  startRenderLoop ;;
  temit (LoggerInfo "✅ Render loop started") ;;
  temit (LoggerInfo "🔄 Creating MorphingTransitionSystem...") ;;
  a <- getApp ;;
  (fun st =>
     let '(sys, ev) := MTS.constructor (quantumVisualizer a) (page_browser (page st)) in
     (Normal tt,
      mkAppState
        (mkApplication (quantumVisualizer a) (Some (self sys)) (isInitialized a))
        (page st),
      ev)) ;;
  registerSections ;;
  onMorphingSystem MTS.setupMorphingTransitions ;;
  onMorphingSystem MTS.setupTextScrollOff ;;
  temit (LoggerInfo "✅ Integrated morphing system initialized") ;;
  a <- getApp ;;
  putApp (mkApplication (quantumVisualizer a) (morphingSystem a) true) ;;
  temit (LoggerInfo "🎉 Application initialized successfully") ;;
  temit (DispatchEvent "clearSeasEnhancedReady").

(** [initialize()].  The method is [async] and awaits nothing: its body
    runs to the end within the call. *)
Definition initialize : T AppState unit :=
  a <- getApp ;;
  if isInitialized a then temit (LoggerWarn "Already initialized")
  else
    try_catch initialize_body (fun error =>
      temit (LoggerError "Initialization failed:" error) ;;
      temit (ConsoleError error)).

End App.

(** The application of the simplified variant, which drives a
    [DetailedScrollChoreographer]. *)
Module AppDetailed.
Local Open Scope throwing_scope.

(** [C] is the type of [DetailedScrollChoreographer] objects; the class is
    imported and its source is outside this code. *)
Record Application (C : Type) : Type := mkApplication {
  quantumVisualizer : option Visualizer;
  detailedScrollChoreographer : option C;
  isInitialized : bool
}.

(** The page around the application, with the constructors and the
    [initialize] method of the two imported classes. *)
Record Page (C : Type) : Type := mkPage {
  newWorkingQuantumVisualizer : string -> Completion Visualizer;
  newDetailedScrollChoreographer : Visualizer -> Completion C * list Event;
  choreographerInitialize : C -> Completion C * list Event
}.

Record AppState (C : Type) : Type := mkAppState {
  app : Application C;
  page : Page C
}.

Section WithChoreographer.
Variable C : Type.

(** [new ClearSeasEnhancedApplication()] *)
Definition constructor (p : Page C) : AppState C * list Event :=
  (mkAppState (mkApplication None None false) p,
   [LoggerInfo "🌊 Clear Seas Solutions - Working Visualizer System"]).

Definition getApp : T (AppState C) (Application C) :=
  fun st => (Normal (app st), st, []).
Definition putApp (a : Application C) : T (AppState C) unit :=
  fun st => (Normal tt, mkAppState a (page st), []).

(** The function [render] of [startRenderLoop]. *)
Definition render : T (AppState C) unit :=
  a <- getApp ;;
  (match quantumVisualizer a with
   | Some _ => temit VisualizerRender
   | None => tret tt
   end) ;;
  temit RequestAnimationFrame.

(** [startRenderLoop()] *)
Definition startRenderLoop : T (AppState C) unit := temit RequestAnimationFrame.

(** The [try] block of [initialize]. *)
Definition initialize_body : T (AppState C) unit :=
  temit (LoggerInfo "🌌 Creating WorkingQuantumVisualizer...") ;;
  temit (NewVisualizer "quantum-background") ;;
  v <- (fun st =>
          (newWorkingQuantumVisualizer (page st) "quantum-background"%string, st, [])) ;;
  a <- getApp ;;
  putApp (mkApplication (Some v) (detailedScrollChoreographer a) (isInitialized a)) ;;
  (if negb (gl v) then throw "Failed to create WebGL context" else tret tt) ;;
  temit (LoggerInfo "✅ WorkingQuantumVisualizer created with WebGL context") ;;
  startRenderLoop ;;
  temit (LoggerInfo "✅ Render loop started") ;;
  temit (LoggerInfo "🎬 Creating DetailedScrollChoreographer...") ;;
  c <- (fun st =>
          let '(r, ev) := newDetailedScrollChoreographer (page st) v in (r, st, ev)) ;;
  a <- getApp ;;
  putApp (mkApplication (quantumVisualizer a) (Some c) (isInitialized a)) ;;
  c' <- (fun st => let '(r, ev) := choreographerInitialize (page st) c in (r, st, ev)) ;;
  a <- getApp ;;
  putApp (mkApplication (quantumVisualizer a) (Some c') (isInitialized a)) ;;
  temit (LoggerInfo "✅ Scroll choreography initialized") ;;
  a <- getApp ;;
  putApp (mkApplication (quantumVisualizer a) (detailedScrollChoreographer a) true) ;;
  temit (LoggerInfo "🎉 Application initialized successfully") ;;
  temit (DispatchEvent "clearSeasEnhancedReady").

(** [initialize()] *)
Definition initialize : T (AppState C) unit :=
  a <- getApp ;;
  if isInitialized a then temit (LoggerWarn "Already initialized")
  else
    try_catch initialize_body (fun error =>
      temit (LoggerError "Initialization failed:" error) ;;
      temit (ConsoleError error)).

End WithChoreographer.
End AppDetailed.

(** ** Observations on the events of a run *)

(** The method entries among the events. *)
Definition calls (evs : list Event) : list Call :=
  flat_map (fun e => match e with Invoke c => [c] | _ => [] end) evs.

(** The assignments to fields of [visualizer.params]. *)
Definition param_writes (evs : list Event) : list (ParamName * R) :=
  flat_map (fun e => match e with ParamWrite n v => [(n, v)] | _ => [] end) evs.

(** The calls of [gsap.set]. *)
Definition gsap_sets (evs : list Event) : list (Element * Vars) :=
  flat_map (fun e => match e with GsapSet t vars => [(t, vars)] | _ => [] end) evs.

(** What a run writes: the [gsap.set] calls and the parameter assignments,
    in order. *)
Definition writes (evs : list Event) : list Event :=
  filter (fun e => match e with GsapSet _ _ | ParamWrite _ _ => true | _ => false end)
    evs.

(** The morph triggers created with [gsap.timeline]. *)
Definition timelines (evs : list Event) : list MorphTrigger :=
  flat_map (fun e => match e with GsapTimeline st => [st] | _ => [] end) evs.



(** The pairs of neighbours of a list, in order. *)
Definition consecutive {A : Type} (l : list A) : list (A * A) := combine l (tl l).

(** The ranges of the style values that [disassembleCards] writes. *)
Definition disassembled_style_in_range (vars : Vars) : Prop :=
  Forall (fun kv =>
            match fst kv with
            | Opacity => (0 <= snd kv <= 1)%R
            | Scale => (0.5 <= snd kv <= 1)%R
            | FilterBlur => (0 <= snd kv <= 12)%R
            | X | Y | Rotation => True
            end) vars.

Definition event_style_in_range (e : Event) : Prop :=
  match e with
  | GsapSet _ vars => disassembled_style_in_range vars
  | _ => True
  end.

(** The calls that one invocation of [onTransitionProgress] makes. *)
Definition progress_calls (fromConfig toConfig : SectionConfig) (p : R) (st : State)
  : list Call :=
  calls (events_of (MTS.onTransitionProgress fromConfig toConfig p st)).

Definition is_call (e : Event) : Prop :=
  match e with Invoke _ => True | _ => False end.



(** Two states give a transition handler the same inputs: the same
    document, the same draws of [Math.random] from now on, and either no
    parameter object in both or one with the same [rot4dXW] and [rot4dYW]. *)
Definition same_inputs (st1 st2 : State) : Prop :=
  document (browser st1) = document (browser st2) /\
  (forall i : nat,
      randoms (browser st1) (drawn (browser st1) + i) =
      randoms (browser st2) (drawn (browser st2) + i)) /\
  match visualizer_params (self st1), visualizer_params (self st2) with
  | Some p1, Some p2 =>
      params_rot4dXW p1 = params_rot4dXW p2 /\ params_rot4dYW p1 = params_rot4dYW p2
  | None, None => True
  | _, _ => False
  end.

(** Two method bodies agree on states with the same inputs: they return
    the same value, emit the same events and leave states that again have
    the same inputs. *)
Definition agree {A : Type} (m1 m2 : M A) : Prop :=
  forall st1 st2,
    same_inputs st1 st2 ->
    fst (fst (m1 st1)) = fst (fst (m2 st2)) /\
    events_of (m1 st1) = events_of (m2 st2) /\
    same_inputs (state_of (m1 st1)) (state_of (m2 st2)).

(** What one frame writes depends on the configurations and the progress
    alone: from any two states, [onTransitionProgress] writes the same. *)
Definition frame_determined (fromConfig toConfig : SectionConfig) (p : R)
    (st1 st2 : State) : Prop :=
  writes (events_of (MTS.onTransitionProgress fromConfig toConfig p st1)) =
  writes (events_of (MTS.onTransitionProgress fromConfig toConfig p st2)).

(** [registerSection] stores, for a section that the document has, an
    entry whose [cardCount] is the number of elements that the card
    selector matches within the section. *)
Definition registerSection_counts_cards (sectionId : string) (config : Config)
    (st : State) : Prop :=
  forall sec,
    getElementById (document (browser st)) sectionId = Some sec ->
    exists entry,
      map_get sectionId
        (sectionConfigs (self (state_of (MTS.registerSection sectionId config st)))) =
        Some entry /\
      cardCount entry =
        List.length
          (querySelectorAll (document (browser st)) sec
             (MTS.or_string (cfg_cardSelector config) MTS.defaultCardSelector)).

(** The system after a sequence of calls of [registerSection]. *)
Definition register_all (regs : list (string * Config)) (st : State) : State :=
  fold_left (fun s r => state_of (MTS.registerSection (fst r) (snd r) s)) regs st.

(** A new system on which the sections [regs] have been registered. *)
Definition registered (v : option Visualizer) (b : Browser)
    (regs : list (string * Config)) : State :=
  register_all regs (fst (MTS.constructor v b)).

(** The values that leave a card as it is, and the values that
    [onTransitionStart] sets. *)
Definition restPose : Vars :=
  [(X, 0%R); (Y, 0%R); (Rotation, 0%R); (Scale, 1%R); (Opacity, 1%R);
   (FilterBlur, 0%R)].

Definition startPose : Vars := [(Opacity, 0%R); (Scale, 0.8%R); (FilterBlur, 8%R)].

(** Every draw of [Math.random] lies in [[0, 1]]. *)
Definition draws_in_unit (st : State) : Prop :=
  forall n : nat, (0 <= randoms (browser st) n <= 1)%R.

(** The four registrations of [registerSections], in the order of the
    calls. *)
Definition pageSections : list (string * Config) :=
  [("hero"%string,
    mkConfig (Some ".signal-card"%string) (Some "grid"%string) Presets.hero
      None None None);
   ("capabilities"%string,
    mkConfig (Some ".capability-card"%string) (Some "grid"%string)
      Presets.capabilities None None None);
   ("research"%string,
    mkConfig (Some ".card"%string) (Some "stack"%string) Presets.research
      None None None);
   ("contact"%string,
    mkConfig (Some ".contact-card"%string) (Some "flex"%string) Presets.contact
      None None None)].

(** The document has an element with the id. *)
Definition present (d : Document) (i : string) : bool :=
  match getElementById d i with
  | Some _ => true
  | None => false
  end.

(** The events of a sequence of calls of [registerSection]. *)
Fixpoint register_events (regs : list (string * Config)) (st : State) : list Event :=
  match regs with
  | [] => []
  | r :: rest =>
      events_of (MTS.registerSection (fst r) (snd r) st) ++
      register_events rest (state_of (MTS.registerSection (fst r) (snd r) st))
  end.

(** The system of the application after the registrations of
    [initialize], on a page with browser [br], for the visualizer [v]. *)
Definition initial_system (v : Visualizer) (br : Browser) : State :=
  register_all pageSections (mkState (mkSystem (Some v) []) br).

(** The events of a call of [initialize] that succeeds. *)
Definition success_events (v : Visualizer) (br : Browser) : list Event :=
  [LoggerInfo "🌌 Creating WorkingQuantumVisualizer...";
   NewVisualizer "quantum-background";
   LoggerInfo "✅ WorkingQuantumVisualizer created with WebGL context";
   RequestAnimationFrame;
   LoggerInfo "✅ Render loop started";
   LoggerInfo "🔄 Creating MorphingTransitionSystem...";
   ConsoleLog "🔄 MorphingTransitionSystem initialized"] ++
  (register_events pageSections (mkState (mkSystem (Some v) []) br) ++
   [LoggerInfo "📝 Sections registered with morphing system"]) ++
  events_of (MTS.setupMorphingTransitions (initial_system v br)) ++
  events_of (MTS.setupTextScrollOff (initial_system v br)) ++
  [LoggerInfo "✅ Integrated morphing system initialized";
   LoggerInfo "🎉 Application initialized successfully";
   DispatchEvent "clearSeasEnhancedReady"].

(** [n] frames in a row: each frame is a run of the function [render]
    that [startRenderLoop] hands to [requestAnimationFrame].  The result is
    the state after the last frame and the events of all of them. *)
Fixpoint frames {St : Type} (render : T St unit) (n : nat) (st : St)
  : St * list Event :=
  match n with
  | O => (st, [])
  | S n' =>
      let '(_, st1, ev1) := render st in
      let '(st2, ev2) := frames render n' st1 in
      (st2, ev1 ++ ev2)
  end.

(** The events of one frame. *)
Definition frame_events (qv : option Visualizer) : list Event :=
  match qv with
  | Some _ => [VisualizerRender; RequestAnimationFrame]
  | None => [RequestAnimationFrame]
  end.

(** The events of [initialize] in the simplified variant up to the
    construction of the choreographer. *)
Definition detailed_prefix : list Event :=
  [LoggerInfo "🌌 Creating WorkingQuantumVisualizer...";
   NewVisualizer "quantum-background";
   LoggerInfo "✅ WorkingQuantumVisualizer created with WebGL context";
   RequestAnimationFrame;
   LoggerInfo "✅ Render loop started";
   LoggerInfo "🎬 Creating DetailedScrollChoreographer..."].

(** The two reports of the [catch] block. *)
Definition failure_report (error : string) : list Event :=
  [LoggerError "Initialization failed:" error; ConsoleError error].

(** The transformations of a frame at progress [p], as the three windows
    give them: the disassembly of the cards of the from section for
    [p < 0.4], the morph of the visualizer for [0.3 <= p <= 0.7], the
    assembly of the cards of the to section for [0.6 <= p], each with its
    normalized progress. *)
Definition window_transformations (fromConfig toConfig : SectionConfig) (p : R)
  : list (M unit) :=
  (if Rlt_dec p 0.4
   then [MTS.disassembleCards (cards fromConfig) (p / 0.4)] else []) ++
  (if Rle_dec 0.3 p
   then if Rle_dec p 0.7
        then [MTS.morphVisualizer (visualizerState fromConfig)
                (visualizerState toConfig) ((p - 0.3) / 0.4)]
        else []
   else []) ++
  (if Rle_dec 0.6 p
   then [MTS.assembleCards (cards toConfig) ((p - 0.6) / 0.4)] else []).

(** The entries of the handlers that these transformations are. *)
Definition window_calls (fromConfig toConfig : SectionConfig) (p : R) : list Call :=
  (if Rlt_dec p 0.4
   then [Call_disassembleCards (cards fromConfig) (p / 0.4)] else []) ++
  (if Rle_dec 0.3 p
   then if Rle_dec p 0.7
        then [Call_morphVisualizer (visualizerState fromConfig)
                (visualizerState toConfig) ((p - 0.3) / 0.4)]
        else []
   else []) ++
  (if Rle_dec 0.6 p
   then [Call_assembleCards (cards toConfig) ((p - 0.6) / 0.4)] else []).

(** Methods run one after the other, each from the state that the one
    before it left. *)
Fixpoint in_turn (ms : list (M unit)) : M unit :=
  match ms with
  | [] => ret tt
  | m :: rest => (m ;; in_turn rest)%method
  end.

(** The style that [assembleCards] sets on a card whose eased progress is
    [e]. *)
Definition assembledPose (e : R) : Vars :=
  [(X, 0%R); (Y, 0%R); (Rotation, 0%R); (Scale, (0.8 + e * 0.2)%R); (Opacity, e);
   (FilterBlur, ((1 - e) * 8)%R)].

(** The card is at most 200 away from its place along each axis. *)
Definition within_scatter_box (vars : Vars) : Prop :=
  forall k v, In (k, v) vars -> k = X \/ k = Y -> (-200 <= v <= 200)%R.

(** The card is turned by at most 22.5 degrees. *)
Definition rotation_bounded (vars : Vars) : Prop :=
  forall v, In (Rotation, v) vars -> (-22.5 <= v <= 22.5)%R.

(** ** A sample page *)

Module Sample.
Local Open Scope R_scope.

Definition heroElement : Element := mkElement 1 "hero".
Definition capabilitiesElement : Element := mkElement 2 "capabilities".
Definition signalCard1 : Element := mkElement 11 "".
Definition signalCard2 : Element := mkElement 12 "".
Definition capabilityCard1 : Element := mkElement 21 "".

(** A page with a hero section of two signal cards and a capabilities
    section of one capability card. *)
Definition page : Document :=
  mkDocument
    (fun i =>
       if String.eqb i "hero" then Some heroElement
       else if String.eqb i "capabilities" then Some capabilitiesElement
       else None)
    (fun e selector =>
       if Nat.eqb (node e) 1 then
         if String.eqb selector ".signal-card" then [signalCard1; signalCard2] else []
       else if Nat.eqb (node e) 2 then
         if String.eqb selector ".capability-card" then [capabilityCard1] else []
       else [])
    (fun _ => []).

Definition zeroParams : Params := mkParams 0 0 0 0 0 0 0 0.
Definition workingVisualizer : Visualizer := mkVisualizer true (Some zeroParams).
Definition browser0 : Browser := mkBrowser page (fun _ => 0.5) 0.

(** The system right after its construction on a working visualizer. *)
Definition state0 : State := mkState (mkSystem (Some workingVisualizer) []) browser0.

Definition heroEntry : SectionConfig :=
  mkSectionConfig heroElement [signalCard1; signalCard2] "grid" 2 Presets.hero
    (Some ".signal-card"%string).
Definition capabilitiesEntry : SectionConfig :=
  mkSectionConfig capabilitiesElement [capabilityCard1] "grid" 1 Presets.capabilities
    (Some ".capability-card"%string).

(** A configuration with a [cardCount] property of its own. *)
Definition countedConfig : Config :=
  mkConfig (Some ".signal-card"%string) (Some "grid"%string) Presets.hero
    None None (Some 5%nat).

(** A state that differs from [state0] in the section map, in the WebGL
    context and in every parameter but [rot4dXW] and [rot4dYW]. *)
Definition state0' : State :=
  mkState
    (mkSystem (Some (mkVisualizer false (Some (mkParams 1 2 3 4 5 6 0 0))))
       [("hero"%string, heroEntry)])
    browser0.

(** Eleven cards, as many as it takes for the last one to stay in place,
    and a section that holds them. *)
Definition elevenCards : list Element := map (fun n => mkElement n "") (seq 100 11).

(** Eight cards, one more than [assembleCards] brings in. *)
Definition eightCards : list Element := map (fun n => mkElement n "") (seq 200 8).

(** A visualizer whose WebGL context could not be created. *)
Definition failedVisualizer : Visualizer := mkVisualizer false (Some zeroParams).

(** The page of the application, on which the WebGL context is created,
    and the same page without WebGL. *)
Definition appPage : App.Page :=
  App.mkPage (fun _ => Normal workingVisualizer) browser0.
Definition appPageWithoutWebGL : App.Page :=
  App.mkPage (fun _ => Normal failedVisualizer) browser0.

(** The application after its first [initialize] on [appPage]. *)
Definition initializedApp : App.AppState :=
  snd (fst (App.initialize (fst (App.constructor appPage)))).

(** Pages of the simplified variant.  A choreographer is represented by
    the number of times its [initialize] has run.  On the first page both
    the constructor and [initialize] of the choreographer return; on the
    second the constructor throws; on the third [initialize] throws. *)
Definition detailedPage : AppDetailed.Page nat :=
  AppDetailed.mkPage (fun _ => Normal workingVisualizer)
    (fun _ => (Normal 0%nat, [])) (fun c => (Normal (S c), [])).
Definition detailedPageNoChoreographer : AppDetailed.Page nat :=
  AppDetailed.mkPage (fun _ => Normal workingVisualizer)
    (fun _ => (Throw "ScrollTrigger is not defined", []))
    (fun c => (Normal (S c), [])).
Definition detailedPageNoChoreography : AppDetailed.Page nat :=
  AppDetailed.mkPage (fun _ => Normal workingVisualizer)
    (fun _ => (Normal 0%nat, []))
    (fun c => (Throw "gsap is not defined", [])).

(** A page on which the constructor of the visualizer throws. *)
Definition appPageNoCanvas : App.Page :=
  App.mkPage (fun _ => Throw "Canvas quantum-background not found") browser0.

End Sample.

(** ** Numbers: interpolation and easing *)

Section NumberFacts.
Import Num.
Local Open Scope R_scope.

Lemma clamp01_range (v : R) : 0 <= clamp01 v <= 1.
Proof.
  unfold clamp01, Rmax, Rmin.
  destruct (Rle_dec 1 v); destruct (Rle_dec 0 _); lra.
Qed.

Lemma clamp01_inside (v : R) : 0 <= v <= 1 -> clamp01 v = v.
Proof.
  intros Hv. unfold clamp01, Rmax, Rmin.
  destruct (Rle_dec 1 v); destruct (Rle_dec 0 _); lra.
Qed.

Lemma easeInOutCubic_below (t : R) : t < 0.5 -> easeInOutCubic t = 4 * t ^ 3.
Proof.
  intros Ht. unfold easeInOutCubic.
  destruct (Rlt_dec t 0.5); [ring | contradiction].
Qed.

Lemma easeInOutCubic_above (t : R) :
  0.5 <= t -> easeInOutCubic t = 1 - (2 - 2 * t) ^ 3 / 2.
Proof.
  intros Ht. unfold easeInOutCubic.
  destruct (Rlt_dec t 0.5); [lra | ].
  replace (-2 * t + 2) with (2 - 2 * t) by ring. reflexivity.
Qed.

Lemma cube_le (x y : R) : 0 <= x -> x <= y -> x ^ 3 <= y ^ 3.
Proof. intros Hx Hxy. apply pow_incr. split; assumption. Qed.

Lemma easeInOutCubic_0 : easeInOutCubic 0 = 0.
Proof. rewrite easeInOutCubic_below by lra. ring. Qed.

Lemma easeInOutCubic_1 : easeInOutCubic 1 = 1.
Proof. rewrite easeInOutCubic_above by lra. lra. Qed.

Lemma easeInOutCubic_half : easeInOutCubic 0.5 = 0.5.
Proof. rewrite easeInOutCubic_above by lra. lra. Qed.

Lemma easeInOutCubic_monotone (s t : R) :
  0 <= s -> s <= t -> t <= 1 -> easeInOutCubic s <= easeInOutCubic t.
Proof.
  intros H0 Hst H1.
  destruct (Rlt_dec s 0.5) as [Hs | Hs]; destruct (Rlt_dec t 0.5) as [Ht | Ht].
  - rewrite !easeInOutCubic_below by assumption.
    pose proof (cube_le H0 Hst). lra.
  - rewrite (easeInOutCubic_below Hs), easeInOutCubic_above by lra.
    assert (s ^ 3 <= 0.5 ^ 3) by (apply cube_le; lra).
    assert ((2 - 2 * t) ^ 3 <= 1 ^ 3) by (apply cube_le; lra).
    lra.
  - lra.
  - rewrite !easeInOutCubic_above by lra.
    assert ((2 - 2 * t) ^ 3 <= (2 - 2 * s) ^ 3) by (apply cube_le; lra).
    lra.
Qed.

Lemma easeInOutCubic_range (t : R) : 0 <= t <= 1 -> 0 <= easeInOutCubic t <= 1.
Proof.
  intros [H0 H1].
  pose proof (@easeInOutCubic_monotone 0 t) as Hlo.
  pose proof (@easeInOutCubic_monotone t 1) as Hhi.
  rewrite easeInOutCubic_0 in Hlo. rewrite easeInOutCubic_1 in Hhi.
  split; [apply Hlo | apply Hhi]; lra.
Qed.

Lemma lerp_0 (a b : R) : lerp a b 0 = a.
Proof. unfold lerp. ring. Qed.

End NumberFacts.

(** ** Method bodies: events and state *)

Section MethodFacts.
Context {A B : Type}.

Lemma run_bind (m : M A) (k : A -> M B) (st : State) :
  bind m k st =
  (fst (fst (k (fst (fst (m st))) (state_of (m st)))),
   state_of (k (fst (fst (m st))) (state_of (m st))),
   events_of (m st) ++ events_of (k (fst (fst (m st))) (state_of (m st)))).
Proof.
  unfold bind, state_of, events_of.
  destruct (m st) as [[a st1] ev1]; simpl.
  destruct (k a st1) as [[b st2] ev2]; reflexivity.
Qed.

Lemma events_of_bind (m : M A) (k : A -> M B) (st : State) :
  events_of (bind m k st) =
  events_of (m st) ++ events_of (k (fst (fst (m st))) (state_of (m st))).
Proof. rewrite run_bind. reflexivity. Qed.

Lemma state_of_bind (m : M A) (k : A -> M B) (st : State) :
  state_of (bind m k st) = state_of (k (fst (fst (m st))) (state_of (m st))).
Proof. rewrite run_bind. reflexivity. Qed.

End MethodFacts.

Lemma calls_app (e1 e2 : list Event) : calls (e1 ++ e2) = calls e1 ++ calls e2.
Proof. apply flat_map_app. Qed.

Lemma param_writes_app (e1 e2 : list Event) :
  param_writes (e1 ++ e2) = param_writes e1 ++ param_writes e2.
Proof. apply flat_map_app. Qed.

Lemma gsap_sets_app (e1 e2 : list Event) :
  gsap_sets (e1 ++ e2) = gsap_sets e1 ++ gsap_sets e2.
Proof. apply flat_map_app. Qed.

Lemma timelines_app (e1 e2 : list Event) :
  timelines (e1 ++ e2) = timelines e1 ++ timelines e2.
Proof. apply flat_map_app. Qed.

(** Every event of a loop has a property that every event of its body has. *)
Lemma forEach_from_Forall {A : Type} (P : Event -> Prop) (f : A -> nat -> M unit) :
  (forall a i st, Forall P (events_of (f a i st))) ->
  forall l i st, Forall P (events_of (forEach_from l i f st)).
Proof.
  intros Hf l. induction l as [| a rest IH]; intros i st; simpl.
  - constructor.
  - rewrite events_of_bind. apply Forall_app. split; [apply Hf | apply IH].
Qed.

(** A loop whose body leaves the state alone and ignores the index emits
    the events of the body for each element in turn. *)
Lemma forEach_from_pure {A : Type} (body : A -> M unit) :
  (forall a st, state_of (body a st) = st) ->
  forall l i st,
    state_of (forEach_from l i (fun a _ => body a) st) = st /\
    events_of (forEach_from l i (fun a _ => body a) st) =
    flat_map (fun a => events_of (body a st)) l.
Proof.
  intros Hb l. induction l as [| a rest IH]; intros i st; simpl.
  - split; reflexivity.
  - rewrite state_of_bind, events_of_bind, Hb.
    destruct (IH (S i) st) as [Hs He]. rewrite Hs, He. split; reflexivity.
Qed.

Lemma calls_none (evs : list Event) :
  Forall (fun e => ~ is_call e) evs -> calls evs = [].
Proof.
  induction 1 as [| e rest He _ IH]; [reflexivity |].
  unfold calls in *. simpl. rewrite IH.
  destruct e; simpl in *; try reflexivity. exfalso. apply He. exact I.
Qed.

(** ** The phase windows of [onTransitionProgress] *)

Section PhaseWindows.
Local Open Scope R_scope.

Lemma calls_disassembleCards (cs : list Element) (q : R) (st : State) :
  calls (events_of (MTS.disassembleCards cs q st)) = [Call_disassembleCards cs q].
Proof.
  unfold MTS.disassembleCards. rewrite events_of_bind, calls_app. simpl.
  rewrite calls_none; [reflexivity |].
  apply forEach_from_Forall. intros card i st'.
  rewrite events_of_bind. simpl. repeat constructor. intros H; exact H.
Qed.

Lemma events_assign_param (n : ParamName) (v : R) (st : State) :
  Forall (fun e => ~ is_call e) (events_of (assign_param n v st)).
Proof.
  unfold assign_param, events_of.
  destruct (visualizer (self st)) as [vis |]; simpl; [| constructor].
  destruct (params vis); simpl; repeat constructor. intros H; exact H.
Qed.

Lemma events_add_to_param (n : ParamName) (d : R) (st : State) :
  Forall (fun e => ~ is_call e) (events_of (add_to_param n d st)).
Proof.
  unfold add_to_param. rewrite events_of_bind. simpl.
  destruct (visualizer_params (self st)); [apply events_assign_param | constructor].
Qed.

Lemma calls_morphVisualizer (a b : VisualizerState) (q : R) (st : State) :
  calls (events_of (MTS.morphVisualizer a b q st)) = [Call_morphVisualizer a b q].
Proof.
  unfold MTS.morphVisualizer. rewrite events_of_bind, calls_app. simpl.
  rewrite events_of_bind. simpl.
  rewrite calls_none; [reflexivity |].
  change (state_of (emit (Invoke (Call_morphVisualizer a b q)) st)) with st.
  change (state_of (getState st)) with st.
  destruct (visualizer_params (self st)); [| constructor].
  repeat (rewrite events_of_bind; apply Forall_app; split;
          [first [apply events_assign_param | apply events_add_to_param] |]).
  apply events_add_to_param.
Qed.

Lemma calls_assembleCards (cs : list Element) (q : R) (st : State) :
  calls (events_of (MTS.assembleCards cs q st)) = [Call_assembleCards cs q].
Proof.
  unfold MTS.assembleCards. rewrite events_of_bind, calls_app. simpl.
  rewrite calls_none; [reflexivity |].
  apply forEach_from_Forall. intros card i st'.
  rewrite events_of_bind. simpl. constructor; [intros H; exact H |].
  destruct (Rgt_dec _ _); [| constructor].
  rewrite events_of_bind. simpl.
  apply forEach_from_Forall. intros el j st''. simpl.
  repeat constructor. intros H; exact H.
Qed.

(** The calls that [onTransitionProgress] makes, phase by phase. *)
Lemma calls_onTransitionProgress (fromConfig toConfig : SectionConfig) (p : R)
    (st : State) :
  calls (events_of (MTS.onTransitionProgress fromConfig toConfig p st)) =
  (if Rlt_dec p 0.4
   then [Call_disassembleCards (cards fromConfig) (p / 0.4)] else []) ++
  (if Rge_dec p 0.3
   then if Rle_dec p 0.7
        then [Call_morphVisualizer (visualizerState fromConfig)
                (visualizerState toConfig) ((p - 0.3) / 0.4)]
        else []
   else []) ++
  (if Rge_dec p 0.6
   then [Call_assembleCards (cards toConfig) ((p - 0.6) / 0.4)] else []).
Proof.
  unfold MTS.onTransitionProgress.
  rewrite events_of_bind, calls_app, events_of_bind, calls_app.
  f_equal; [| f_equal].
  - destruct (Rlt_dec p 0.4); [apply calls_disassembleCards | reflexivity].
  - destruct (Rge_dec p 0.3); [| reflexivity].
    destruct (Rle_dec p 0.7); [apply calls_morphVisualizer | reflexivity].
  - destruct (Rge_dec p 0.6); [apply calls_assembleCards | reflexivity].
Qed.

(** A frame runs the transformations of its windows, one after the other,
    and nothing else. *)
Lemma onTransitionProgress_in_turn (fromConfig toConfig : SectionConfig) (p : R)
    (st : State) :
  MTS.onTransitionProgress fromConfig toConfig p st =
  in_turn (window_transformations fromConfig toConfig p) st.
Proof.
  unfold MTS.onTransitionProgress, window_transformations. cbv zeta.
  generalize (MTS.disassembleCards (cards fromConfig) (p / 0.4)).
  generalize (MTS.morphVisualizer (visualizerState fromConfig)
                (visualizerState toConfig) ((p - 0.3) / 0.4)).
  generalize (MTS.assembleCards (cards toConfig) ((p - 0.6) / 0.4)).
  intros m3 m2 m1.
  destruct (Rlt_dec p 0.4); destruct (Rge_dec p 0.3); destruct (Rle_dec p 0.7);
    destruct (Rge_dec p 0.6); destruct (Rle_dec 0.3 p); destruct (Rle_dec 0.6 p);
    try lra;
    cbn [app in_turn]; unfold bind, ret;
    repeat match goal with
           | |- context [m1 ?s] => destruct (m1 s) as [[[] ?] ?]
           | |- context [m2 ?s] => destruct (m2 s) as [[[] ?] ?]
           | |- context [m3 ?s] => destruct (m3 s) as [[[] ?] ?]
           end;
    rewrite ?app_nil_r, ?app_nil_l; reflexivity.
Qed.

Lemma progress_calls_window (fromConfig toConfig : SectionConfig) (p : R)
    (st : State) :
  calls (events_of (MTS.onTransitionProgress fromConfig toConfig p st)) =
  window_calls fromConfig toConfig p.
Proof.
  rewrite calls_onTransitionProgress. unfold window_calls.
  destruct (Rlt_dec p 0.4); destruct (Rge_dec p 0.3); destruct (Rle_dec p 0.7);
    destruct (Rge_dec p 0.6); destruct (Rle_dec 0.3 p); destruct (Rle_dec 0.6 p);
    try lra; reflexivity.
Qed.

End PhaseWindows.

Section PhaseWindowsClaim.
Local Open Scope R_scope.

Ltac split_all :=
  repeat match goal with
         | |- _ /\ _ => split
         | |- _ <-> _ => split
         | |- forall _, _ => intro
         end.

Ltac use_hyps :=
  repeat match goal with
         | H : _ /\ _ |- _ => destruct H
         | H : _ \/ _ |- _ => destruct H
         | H : False |- _ => contradiction
         | H : In _ _ |- _ => simpl in H
         | H : Call_disassembleCards _ _ = _ |- _ => inversion H; clear H
         | H : Call_morphVisualizer _ _ _ = _ |- _ => inversion H; clear H
         | H : Call_assembleCards _ _ = _ |- _ => inversion H; clear H
         end.

(** C1: [onTransitionProgress] applies exactly the transformations of its
    three windows.  A frame at progress [p] is the run, one after the other
    and each once, of: [disassembleCards] on the cards of the from section
    with progress [p / 0.4], if and only if [p < 0.4]; [morphVisualizer] on
    the two presets with progress [(p - 0.3) / 0.4], if and only if
    [0.3 <= p <= 0.7]; [assembleCards] on the cards of the to section with
    progress [(p - 0.6) / 0.4], if and only if [0.6 <= p].  The result, the
    state and the events of the frame are those of this run, so the frame
    does what these handlers do and nothing besides; the entries into the
    handlers are these, in this order.  The windows overlap on [(0.3, 0.4)]
    and on [[0.6, 0.7]], and every [p] of [[0, 1]] lies in one of them, so
    that some phase runs. *)
Theorem onTransitionProgress_phase_windows :
  forall (fromConfig toConfig : SectionConfig) (p : R) (st : State),
    MTS.onTransitionProgress fromConfig toConfig p st =
      in_turn (window_transformations fromConfig toConfig p) st /\
    progress_calls fromConfig toConfig p st = window_calls fromConfig toConfig p /\
    (forall l q,
        In (Call_disassembleCards l q) (progress_calls fromConfig toConfig p st) <->
        p < 0.4 /\ l = cards fromConfig /\ q = p / 0.4) /\
    (forall a b q,
        In (Call_morphVisualizer a b q) (progress_calls fromConfig toConfig p st) <->
        (0.3 <= p /\ p <= 0.7) /\
        a = visualizerState fromConfig /\ b = visualizerState toConfig /\
        q = (p - 0.3) / 0.4) /\
    (forall l q,
        In (Call_assembleCards l q) (progress_calls fromConfig toConfig p st) <->
        0.6 <= p /\ l = cards toConfig /\ q = (p - 0.6) / 0.4) /\
    (List.length (progress_calls fromConfig toConfig p st) <= 3)%nat /\
    (0.3 < p < 0.4 ->
     MTS.onTransitionProgress fromConfig toConfig p st =
       in_turn
         [MTS.disassembleCards (cards fromConfig) (p / 0.4);
          MTS.morphVisualizer (visualizerState fromConfig) (visualizerState toConfig)
            ((p - 0.3) / 0.4)] st /\
     In (Call_disassembleCards (cards fromConfig) (p / 0.4))
       (progress_calls fromConfig toConfig p st) /\
     In (Call_morphVisualizer (visualizerState fromConfig) (visualizerState toConfig)
           ((p - 0.3) / 0.4))
       (progress_calls fromConfig toConfig p st)) /\
    (0.6 <= p <= 0.7 ->
     MTS.onTransitionProgress fromConfig toConfig p st =
       in_turn
         [MTS.morphVisualizer (visualizerState fromConfig) (visualizerState toConfig)
            ((p - 0.3) / 0.4);
          MTS.assembleCards (cards toConfig) ((p - 0.6) / 0.4)] st /\
     In (Call_morphVisualizer (visualizerState fromConfig) (visualizerState toConfig)
           ((p - 0.3) / 0.4))
       (progress_calls fromConfig toConfig p st) /\
     In (Call_assembleCards (cards toConfig) ((p - 0.6) / 0.4))
       (progress_calls fromConfig toConfig p st)) /\
    (0 <= p <= 1 ->
     (p < 0.4 \/ (0.3 <= p /\ p <= 0.7) \/ 0.6 <= p) /\
     window_transformations fromConfig toConfig p <> [] /\
     progress_calls fromConfig toConfig p st <> []).
Proof.
  intros fromConfig toConfig p st.
  split; [apply onTransitionProgress_in_turn |].
  split; [apply progress_calls_window |].
  rewrite onTransitionProgress_in_turn.
  unfold progress_calls. rewrite calls_onTransitionProgress.
  unfold window_transformations.
  destruct (Rlt_dec p 0.4); destruct (Rge_dec p 0.3); destruct (Rle_dec p 0.7);
    destruct (Rge_dec p 0.6); destruct (Rle_dec 0.3 p); destruct (Rle_dec 0.6 p);
    try lra;
    split_all; use_hyps; subst;
    try solve [ lra | discriminate | reflexivity | simpl; lia | simpl; auto 6 ].
Qed.

End PhaseWindowsClaim.

(** ** The style values of [disassembleCards] *)

Section DisassembleRanges.
Import Num.
Local Open Scope R_scope.

Lemma gsap_sets_Forall (P : Vars -> Prop) (evs : list Event) :
  Forall (fun e => match e with GsapSet _ vars => P vars | _ => True end) evs ->
  Forall (fun tv => P (snd tv)) (gsap_sets evs).
Proof.
  induction 1 as [| e rest He _ IH]; [constructor |].
  unfold gsap_sets in *. simpl.
  destruct e; simpl; try exact IH. constructor; assumption.
Qed.

(** A loop whose body calls [gsap.set] once, on its element, calls it on
    the elements of the list in order. *)
Lemma forEach_from_targets {A : Type} (target : A -> Element) (f : A -> nat -> M unit) :
  (forall a i st, map fst (gsap_sets (events_of (f a i st))) = [target a]) ->
  forall l i st,
    map fst (gsap_sets (events_of (forEach_from l i f st))) = map target l.
Proof.
  intros Hf l. induction l as [| a rest IH]; intros i st; simpl.
  - reflexivity.
  - rewrite events_of_bind, gsap_sets_app, map_app, Hf, IH. reflexivity.
Qed.

(** A loop whose body calls [gsap.set] once, on its element, with values
    that have a property at the index of the element: the call at a
    position is on the element of that position and has the property
    there. *)
Lemma forEach_from_nth {A : Type} (target : A -> Element) (P : nat -> Vars -> Prop)
    (f : A -> nat -> M unit) :
  (forall a i st,
      exists vars, gsap_sets (events_of (f a i st)) = [(target a, vars)] /\ P i vars) ->
  forall l k st j tv,
    nth_error (gsap_sets (events_of (forEach_from l k f st))) j = Some tv ->
    nth_error (map target l) j = Some (fst tv) /\ P (k + j)%nat (snd tv).
Proof.
  intros Hf l. induction l as [| a rest IH]; intros k st j tv; simpl.
  - destruct j; discriminate.
  - rewrite events_of_bind, gsap_sets_app.
    destruct (Hf a k st) as (vars & -> & HP). simpl.
    destruct j as [| j]; simpl.
    + intros H. injection H as <-. rewrite Nat.add_0_r. split; [reflexivity | exact HP].
    + intros H. rewrite Nat.add_succ_r. apply (IH (S k) _ j tv H).
Qed.

(** C9: whatever the progress and the index of the card, the adjusted
    progress [Math.max(0, Math.min(1, progress - i * 0.1))] lies in [0, 1].
    [disassembleCards] calls [gsap.set] once on each card, in order; the
    call on the card of index [i] writes the opacity [1 - adjusted], the
    scale [1 - adjusted * 0.5] and the blur radius [adjusted * 12] for the
    adjusted progress of that index; and in every call the opacity lies in
    [0, 1], the scale in [0.5, 1] and the blur radius in [0, 12]. *)
Theorem disassembleCards_style_ranges :
  forall (cs : list Element) (progress : R) (st : State),
    (forall i : nat, 0 <= clamp01 (progress - INR i * 0.1) <= 1) /\
    map fst (gsap_sets (events_of (MTS.disassembleCards cs progress st))) = cs /\
    (forall i card vars,
        nth_error (gsap_sets (events_of (MTS.disassembleCards cs progress st))) i =
          Some (card, vars) ->
        nth_error cs i = Some card /\
        In (Opacity, 1 - clamp01 (progress - INR i * 0.1)) vars /\
        In (Scale, 1 - clamp01 (progress - INR i * 0.1) * 0.5) vars /\
        In (FilterBlur, clamp01 (progress - INR i * 0.1) * 12) vars) /\
    Forall (fun tv => disassembled_style_in_range (snd tv))
      (gsap_sets (events_of (MTS.disassembleCards cs progress st))).
Proof.
  intros cs progress st. split; [| split; [| split]].
  - intros i. apply clamp01_range.
  - unfold MTS.disassembleCards. rewrite events_of_bind, gsap_sets_app. simpl.
    unfold forEach.
    rewrite (forEach_from_targets (fun c => c)); [apply map_id |].
    intros card i st'. rewrite events_of_bind. reflexivity.
  - intros i card vars. unfold MTS.disassembleCards.
    rewrite events_of_bind, gsap_sets_app. simpl. unfold forEach. intros H.
    apply (forEach_from_nth (fun c => c)
             (fun i vars =>
                In (Opacity, 1 - clamp01 (progress - INR i * 0.1)) vars /\
                In (Scale, 1 - clamp01 (progress - INR i * 0.1) * 0.5) vars /\
                In (FilterBlur, clamp01 (progress - INR i * 0.1) * 12) vars)) in H.
    + simpl in H. rewrite map_id in H. exact H.
    + intros a k st'. rewrite events_of_bind. simpl. eexists. split; [reflexivity |].
      simpl. auto 10.
  - apply gsap_sets_Forall. fold event_style_in_range.
    unfold MTS.disassembleCards. rewrite events_of_bind.
    apply Forall_app. split; [apply Forall_cons; [exact I | apply Forall_nil] |].
    apply forEach_from_Forall with (P := event_style_in_range). intros card i st'.
    rewrite events_of_bind. simpl.
    pose proof (clamp01_range (progress - INR i * 0.1)) as Hc.
    apply Forall_cons; [| apply Forall_nil].
    unfold event_style_in_range, disassembled_style_in_range.
    repeat (apply Forall_cons; [simpl; first [exact I | lra] |]).
    apply Forall_nil.
Qed.

End DisassembleRanges.

(** ** Linear interpolation in binary64 *)

Section Binary64.
Import Floats.
Local Open Scope float_scope.










End Binary64.

(** ** Interpolation, easing and the visualizer parameters *)

Section Interpolation.
Import Num.
Local Open Scope R_scope.

(** C5: [easeInOutCubic] is [4 * t ^ 3] below [0.5] and
    [1 - (2 - 2 * t) ^ 3 / 2] from [0.5] on; it maps [0] to [0] and [1] to
    [1]; both pieces have the value [1 / 2] at [t = 0.5]; and it does not
    decrease on [[0, 1]]. *)
Theorem easeInOutCubic_well_formed :
  (forall t, t < 0.5 -> easeInOutCubic t = 4 * t ^ 3) /\
  (forall t, 0.5 <= t -> easeInOutCubic t = 1 - (2 - 2 * t) ^ 3 / 2) /\
  easeInOutCubic 0 = 0 /\
  easeInOutCubic 1 = 1 /\
  (4 * 0.5 ^ 3 = 1 / 2 /\ 1 - (2 - 2 * 0.5) ^ 3 / 2 = 1 / 2 /\
   easeInOutCubic 0.5 = 1 / 2) /\
  (forall s t, 0 <= s -> s <= t -> t <= 1 -> easeInOutCubic s <= easeInOutCubic t).
Proof.
  split; [exact easeInOutCubic_below |].
  split; [exact easeInOutCubic_above |].
  split; [exact easeInOutCubic_0 |].
  split; [exact easeInOutCubic_1 |].
  split; [| exact easeInOutCubic_monotone].
  rewrite easeInOutCubic_half. repeat split; lra.
Qed.

(** The parameter assignments of one call of [morphVisualizer]. *)
Lemma param_writes_morphVisualizer (a b : VisualizerState) (t : R) (st : State)
    (p : Params) :
  visualizer_params (self st) = Some p ->
  param_writes (events_of (MTS.morphVisualizer a b t st)) =
  [(P_geometry, lerp (geometry a) (geometry b) (easeInOutCubic t));
   (P_hue, lerp (hue a) (hue b) (easeInOutCubic t));
   (P_intensity, lerp (intensity a) (intensity b) (easeInOutCubic t));
   (P_chaos, lerp (chaos a) (chaos b) (easeInOutCubic t));
   (P_gridDensity, lerp (gridDensity a) (gridDensity b) (easeInOutCubic t));
   (P_morphFactor, sin (easeInOutCubic t * PI));
   (P_rot4dXW, params_rot4dXW p + 0.002 * easeInOutCubic t);
   (P_rot4dYW, params_rot4dYW p + 0.0015 * easeInOutCubic t)].
Proof.
  destruct st as [[vis sc] br]. unfold visualizer_params. simpl.
  destruct vis as [[g [p' |]] |]; simpl; try discriminate.
  intros H. injection H as ->. reflexivity.
Qed.


End Interpolation.

Section InterpolationClaim.
Import Num.
Local Open Scope R_scope.




End InterpolationClaim.

(** ** What a frame depends on *)

Section Agreement.
Local Open Scope R_scope.

Lemma agree_ret {A : Type} (a : A) : agree (ret a) (ret a).
Proof. intros st1 st2 H. repeat split; try reflexivity; apply H. Qed.

Lemma agree_emit (e : Event) : agree (emit e) (emit e).
Proof. intros st1 st2 H. repeat split; try reflexivity; apply H. Qed.

Lemma agree_bind {A B : Type} (m1 m2 : M A) (k1 k2 : A -> M B) :
  agree m1 m2 -> (forall a, agree (k1 a) (k2 a)) ->
  agree (bind m1 k1) (bind m2 k2).
Proof.
  intros Hm Hk st1 st2 H.
  destruct (Hm st1 st2 H) as (Ha & He & Hs).
  rewrite !run_bind. unfold state_of at 1 3, events_of at 1 4. simpl.
  rewrite Ha, He.
  destruct (Hk (fst (fst (m2 st2))) _ _ Hs) as (Hb & He' & Hs').
  rewrite <- Ha in *.
  repeat split; [exact Hb | f_equal; exact He' | apply Hs' | apply Hs' | apply Hs'].
Qed.

Lemma agree_getState_bind {B : Type} (k1 k2 : State -> M B) :
  (forall s1 s2, same_inputs s1 s2 -> agree (k1 s1) (k2 s2)) ->
  agree (bind getState k1) (bind getState k2).
Proof.
  intros Hk st1 st2 H.
  rewrite !run_bind. unfold state_of at 1 3, events_of at 1 4. simpl.
  apply (Hk st1 st2 H st1 st2 H).
Qed.

Lemma agree_Math_random : agree Math_random Math_random.
Proof.
  intros st1 st2 (Hdoc & Hrand & Hpar). unfold Math_random, state_of, events_of. simpl.
  split; [| split; [reflexivity |]].
  - pose proof (Hrand 0%nat) as H0. rewrite !Nat.add_0_r in H0. exact H0.
  - split; [exact Hdoc | split; [| exact Hpar]].
    intros i. simpl. pose proof (Hrand (S i)) as Hi.
    rewrite !Nat.add_succ_r in Hi. exact Hi.
Qed.

Lemma agree_forEach_from {A : Type} (f1 f2 : A -> nat -> M unit) :
  (forall a i, agree (f1 a i) (f2 a i)) ->
  forall l i, agree (forEach_from l i f1) (forEach_from l i f2).
Proof.
  intros Hf l. induction l as [| a rest IH]; intros i; simpl.
  - apply agree_ret.
  - apply agree_bind; [apply Hf | intros _; apply IH].
Qed.

Lemma rot4d_set_param (n : ParamName) (v : R) (p1 p2 : Params) :
  params_rot4dXW p1 = params_rot4dXW p2 /\ params_rot4dYW p1 = params_rot4dYW p2 ->
  params_rot4dXW (set_param n v p1) = params_rot4dXW (set_param n v p2) /\
  params_rot4dYW (set_param n v p1) = params_rot4dYW (set_param n v p2).
Proof. intros [Hx Hy]. destruct n; simpl; split; auto. Qed.

Lemma agree_assign_param (n : ParamName) (v : R) :
  agree (assign_param n v) (assign_param n v).
Proof.
  intros [[vis1 sc1] br1] [[vis2 sc2] br2] (Hdoc & Hrand & Hpar).
  unfold same_inputs, visualizer_params, assign_param, state_of, events_of in *.
  simpl in *.
  destruct vis1 as [[g1 [p1 |]] |]; destruct vis2 as [[g2 [p2 |]] |];
    simpl in *; try contradiction; repeat split; auto;
    apply rot4d_set_param; exact Hpar.
Qed.

Lemma agree_add_to_rot4dXW (d : R) :
  agree (add_to_param P_rot4dXW d) (add_to_param P_rot4dXW d).
Proof.
  unfold add_to_param. apply agree_getState_bind. intros s1 s2 Hs.
  pose proof Hs as (_ & _ & Hpar).
  destruct (visualizer_params (self s1)) as [p1 |];
    destruct (visualizer_params (self s2)) as [p2 |]; try contradiction.
  - simpl. destruct Hpar as [-> _]. apply agree_assign_param.
  - apply agree_ret.
Qed.

Lemma agree_add_to_rot4dYW (d : R) :
  agree (add_to_param P_rot4dYW d) (add_to_param P_rot4dYW d).
Proof.
  unfold add_to_param. apply agree_getState_bind. intros s1 s2 Hs.
  pose proof Hs as (_ & _ & Hpar).
  destruct (visualizer_params (self s1)) as [p1 |];
    destruct (visualizer_params (self s2)) as [p2 |]; try contradiction.
  - simpl. destruct Hpar as [_ ->]. apply agree_assign_param.
  - apply agree_ret.
Qed.

Lemma agree_disassembleCards (cs : list Element) (q : R) :
  agree (MTS.disassembleCards cs q) (MTS.disassembleCards cs q).
Proof.
  unfold MTS.disassembleCards.
  apply agree_bind; [apply agree_emit | intros _].
  apply agree_forEach_from. intros card i.
  apply agree_bind; [apply agree_Math_random | intros r; apply agree_emit].
Qed.

Lemma agree_morphVisualizer (a b : VisualizerState) (q : R) :
  agree (MTS.morphVisualizer a b q) (MTS.morphVisualizer a b q).
Proof.
  unfold MTS.morphVisualizer.
  apply agree_bind; [apply agree_emit | intros _].
  apply agree_getState_bind. intros s1 s2 Hs.
  pose proof Hs as (_ & _ & Hpar).
  destruct (visualizer_params (self s1)) as [p1 |];
    destruct (visualizer_params (self s2)) as [p2 |]; try contradiction.
  - repeat (apply agree_bind; [apply agree_assign_param | intros _]).
    apply agree_bind; [apply agree_add_to_rot4dXW | intros _].
    apply agree_add_to_rot4dYW.
  - apply agree_ret.
Qed.

Lemma agree_assembleCards (cs : list Element) (q : R) :
  agree (MTS.assembleCards cs q) (MTS.assembleCards cs q).
Proof.
  unfold MTS.assembleCards.
  apply agree_bind; [apply agree_emit | intros _].
  apply agree_forEach_from. intros card i.
  apply agree_bind; [apply agree_emit | intros _].
  destruct (Rgt_dec _ _); [| apply agree_ret].
  apply agree_getState_bind. intros s1 s2 Hs.
  pose proof Hs as (Hdoc & _ & _). rewrite Hdoc.
  apply agree_forEach_from. intros el j. apply agree_emit.
Qed.

Lemma agree_onTransitionProgress (fromConfig toConfig : SectionConfig) (p : R) :
  agree (MTS.onTransitionProgress fromConfig toConfig p)
    (MTS.onTransitionProgress fromConfig toConfig p).
Proof.
  unfold MTS.onTransitionProgress.
  apply agree_bind; [| intros _; apply agree_bind; [| intros _]].
  - destruct (Rlt_dec p 0.4); [apply agree_disassembleCards | apply agree_ret].
  - destruct (Rge_dec p 0.3); [| apply agree_ret].
    destruct (Rle_dec p 0.7); [apply agree_morphVisualizer | apply agree_ret].
  - destruct (Rge_dec p 0.6); [apply agree_assembleCards | apply agree_ret].
Qed.

End Agreement.

Section FrameState.
Import Num.
Local Open Scope R_scope.

Lemma forEach_from_self {A : Type} (f : A -> nat -> M unit) :
  (forall a i st, self (state_of (f a i st)) = self st) ->
  forall l i st, self (state_of (forEach_from l i f st)) = self st.
Proof.
  intros Hf l. induction l as [| a rest IH]; intros i st; simpl.
  - reflexivity.
  - rewrite state_of_bind, IH. apply Hf.
Qed.

Lemma self_disassembleCards (cs : list Element) (q : R) (st : State) :
  self (state_of (MTS.disassembleCards cs q st)) = self st.
Proof.
  unfold MTS.disassembleCards. rewrite state_of_bind.
  unfold forEach. rewrite forEach_from_self; [reflexivity |].
  intros card i st'. rewrite state_of_bind. reflexivity.
Qed.

Lemma self_assembleCards (cs : list Element) (q : R) (st : State) :
  self (state_of (MTS.assembleCards cs q st)) = self st.
Proof.
  unfold MTS.assembleCards. rewrite state_of_bind.
  unfold forEach. rewrite forEach_from_self; [reflexivity |].
  intros card i st'. rewrite state_of_bind.
  destruct (Rgt_dec _ _); [| reflexivity].
  rewrite state_of_bind. rewrite forEach_from_self; [reflexivity |].
  intros el j st''. reflexivity.
Qed.

(** The parameter object after one call of [morphVisualizer]. *)
Lemma params_after_morphVisualizer (a b : VisualizerState) (t : R) (st : State)
    (p : Params) :
  visualizer_params (self st) = Some p ->
  visualizer_params (self (state_of (MTS.morphVisualizer a b t st))) =
  Some (mkParams
          (lerp (geometry a) (geometry b) (easeInOutCubic t))
          (lerp (hue a) (hue b) (easeInOutCubic t))
          (lerp (intensity a) (intensity b) (easeInOutCubic t))
          (lerp (chaos a) (chaos b) (easeInOutCubic t))
          (lerp (gridDensity a) (gridDensity b) (easeInOutCubic t))
          (sin (easeInOutCubic t * PI))
          (params_rot4dXW p + 0.002 * easeInOutCubic t)
          (params_rot4dYW p + 0.0015 * easeInOutCubic t)).
Proof.
  destruct st as [[vis sc] br]. unfold visualizer_params. simpl.
  destruct vis as [[g [p' |]] |]; simpl; try discriminate.
  intros H. injection H as ->. reflexivity.
Qed.

Lemma self_before_morph (fromConfig : SectionConfig) (p : R) (st : State) :
  self (state_of ((if Rlt_dec p 0.4
                   then MTS.disassembleCards (cards fromConfig) (p / 0.4)
                   else ret tt) st)) = self st.
Proof.
  destruct (Rlt_dec p 0.4); [apply self_disassembleCards | reflexivity].
Qed.

(** Within the window of the visualizer, a frame leaves [rot4dXW] and
    [rot4dYW] increased. *)
Lemma rot4d_after_onTransitionProgress (fromConfig toConfig : SectionConfig) (p : R)
    (st : State) (p0 : Params) :
  visualizer_params (self st) = Some p0 ->
  0.3 <= p <= 0.7 ->
  exists p1,
    visualizer_params
      (self (state_of (MTS.onTransitionProgress fromConfig toConfig p st))) = Some p1 /\
    params_rot4dXW p1 =
      params_rot4dXW p0 + 0.002 * easeInOutCubic ((p - 0.3) / 0.4) /\
    params_rot4dYW p1 =
      params_rot4dYW p0 + 0.0015 * easeInOutCubic ((p - 0.3) / 0.4).
Proof.
  intros Hp0 [Hlo Hhi].
  unfold MTS.onTransitionProgress. cbv zeta. rewrite !state_of_bind. cbv beta.
  match goal with
  | |- context [state_of ((if Rlt_dec p 0.4 then ?a else ?b) st)] =>
      set (st1 := state_of ((if Rlt_dec p 0.4 then a else b) st))
  end.
  assert (H1 : visualizer_params (self st1) = Some p0).
  { unfold st1. rewrite self_before_morph. exact Hp0. }
  destruct (Rge_dec p 0.3) as [_ | Hn]; [| lra].
  destruct (Rle_dec p 0.7) as [_ | Hn]; [| lra].
  pose proof (params_after_morphVisualizer (visualizerState fromConfig)
                (visualizerState toConfig) ((p - 0.3) / 0.4) st1 H1) as H2.
  eexists. split.
  - destruct (Rge_dec p 0.6); [rewrite self_assembleCards |]; exact H2.
  - split; reflexivity.
Qed.

(** Between the windows of the cards, a frame is a call of
    [morphVisualizer]. *)
Lemma onTransitionProgress_middle (fromConfig toConfig : SectionConfig) (p : R)
    (st : State) :
  0.4 <= p < 0.6 ->
  events_of (MTS.onTransitionProgress fromConfig toConfig p st) =
    events_of (MTS.morphVisualizer (visualizerState fromConfig)
                 (visualizerState toConfig) ((p - 0.3) / 0.4) st) /\
  state_of (MTS.onTransitionProgress fromConfig toConfig p st) =
    state_of (MTS.morphVisualizer (visualizerState fromConfig)
                (visualizerState toConfig) ((p - 0.3) / 0.4) st).
Proof.
  intros [Hlo Hhi]. unfold MTS.onTransitionProgress.
  rewrite !events_of_bind, !state_of_bind.
  destruct (Rlt_dec p 0.4) as [Hn | _]; [lra |].
  destruct (Rge_dec p 0.3) as [_ | Hn]; [| lra].
  destruct (Rle_dec p 0.7) as [_ | Hn]; [| lra].
  destruct (Rge_dec p 0.6) as [Hn | _]; [lra |].
  simpl. rewrite app_nil_r. split; reflexivity.
Qed.

Lemma param_writes_writes (evs : list Event) :
  param_writes (writes evs) = param_writes evs.
Proof.
  induction evs as [| e rest IH]; [reflexivity |].
  unfold param_writes, writes in *. destruct e; simpl; rewrite ?IH; reflexivity.
Qed.

End FrameState.

Section FrameClaim.
Import Num.
Local Open Scope R_scope.

(** C3, as stated, fails: on the sample page, two invocations in a row at
    progress [0.5] write different values of [rot4dXW], because the second
    one adds to the value that the first one left. *)
Lemma second_frame_writes_differ :
  ~ frame_determined Sample.heroEntry Sample.capabilitiesEntry 0.5 Sample.state0
      (state_of
         (MTS.onTransitionProgress Sample.heroEntry Sample.capabilitiesEntry 0.5
            Sample.state0)).
Proof.
  unfold frame_determined. intros H.
  apply (f_equal param_writes) in H. rewrite !param_writes_writes in H.
  assert (Hmid : 0.4 <= 0.5 < 0.6) by lra.
  destruct (onTransitionProgress_middle Sample.heroEntry Sample.capabilitiesEntry
              Sample.state0 Hmid) as [He1 Hs1].
  rewrite Hs1 in H.
  destruct (onTransitionProgress_middle Sample.heroEntry Sample.capabilitiesEntry
              (state_of
                 (MTS.morphVisualizer (visualizerState Sample.heroEntry)
                    (visualizerState Sample.capabilitiesEntry) ((0.5 - 0.3) / 0.4)
                    Sample.state0)) Hmid) as [He2 _].
  rewrite He1, He2 in H.
  assert (Hp0 : visualizer_params (self Sample.state0) = Some Sample.zeroParams)
    by reflexivity.
  rewrite (param_writes_morphVisualizer _ _ _ _ Hp0) in H.
  rewrite (param_writes_morphVisualizer _ _ _ _
             (params_after_morphVisualizer _ _ _ _ Hp0)) in H.
  apply (f_equal (fun l => snd (nth 6 l (P_rot4dXW, 0)))) in H.
  simpl in H. rename H into HXW.
  replace ((0.5 - 0.3) / 0.4) with 0.5 in HXW by lra.
  rewrite easeInOutCubic_half in HXW. lra.
Qed.

(** C3, amended: what [onTransitionProgress] writes is a function of the
    two configurations, the progress, the document (for the content of the
    assembled cards), the coming draws of [Math.random] (the rotation of the
    disassembled cards) and the current [rot4dXW] and [rot4dYW] of the
    parameter object: two invocations from states that agree on these emit
    the same events, hence write the same, whatever else differs, and leave
    states that agree on them again.  [rot4dXW] and [rot4dYW] carry over
    from frame to frame: a frame in the window of the visualizer leaves them
    increased by [0.002 * ease] and [0.0015 * ease]. *)
Theorem onTransitionProgress_frame_inputs :
  forall (fromConfig toConfig : SectionConfig) (p : R) (st1 st2 : State),
    same_inputs st1 st2 ->
    events_of (MTS.onTransitionProgress fromConfig toConfig p st1) =
      events_of (MTS.onTransitionProgress fromConfig toConfig p st2) /\
    frame_determined fromConfig toConfig p st1 st2 /\
    same_inputs
      (state_of (MTS.onTransitionProgress fromConfig toConfig p st1))
      (state_of (MTS.onTransitionProgress fromConfig toConfig p st2)) /\
    (forall p0,
        visualizer_params (self st1) = Some p0 ->
        0.3 <= p <= 0.7 ->
        exists p1,
          visualizer_params
            (self (state_of (MTS.onTransitionProgress fromConfig toConfig p st1))) =
            Some p1 /\
          params_rot4dXW p1 =
            params_rot4dXW p0 + 0.002 * easeInOutCubic ((p - 0.3) / 0.4) /\
          params_rot4dYW p1 =
            params_rot4dYW p0 + 0.0015 * easeInOutCubic ((p - 0.3) / 0.4)).
Proof.
  intros fromConfig toConfig p st1 st2 H.
  destruct (agree_onTransitionProgress fromConfig toConfig p H) as (_ & He & Hs).
  split; [exact He |].
  split; [unfold frame_determined; rewrite He; reflexivity |].
  split; [exact Hs |].
  intros p0 Hp0 Hp. apply rot4d_after_onTransitionProgress; assumption.
Qed.

(** On the sample page, the frame at progress [0.5] writes the same from
    two states that differ in the section map, in the WebGL context and in
    the interpolated parameters. *)
Lemma onTransitionProgress_frame_inputs_witness :
  same_inputs Sample.state0 Sample.state0' /\
  frame_determined Sample.heroEntry Sample.capabilitiesEntry 0.5 Sample.state0
    Sample.state0'.
Proof.
  assert (H : same_inputs Sample.state0 Sample.state0').
  { unfold same_inputs. simpl. repeat split; reflexivity. }
  split; [exact H |].
  exact (proj1 (proj2 (@onTransitionProgress_frame_inputs Sample.heroEntry
                         Sample.capabilitiesEntry 0.5 Sample.state0 Sample.state0' H))).
Defined.

End FrameClaim.

(** ** The section map *)

Section SectionMap.
Context {V : Type}.

Lemma map_get_set_same (k : string) (v : V) (m : JSMap V) :
  map_get k (map_set k v m) = Some v.
Proof.
  induction m as [| [k' v'] rest IH]; simpl.
  - rewrite String.eqb_refl. reflexivity.
  - destruct (String.eqb k' k) eqn:E; simpl; rewrite E; [reflexivity | exact IH].
Qed.

Lemma map_get_set_other (k k0 : string) (v : V) (m : JSMap V) :
  k0 <> k -> map_get k0 (map_set k v m) = map_get k0 m.
Proof.
  intros Hne. induction m as [| [k' v'] rest IH]; simpl.
  - destruct (String.eqb k k0) eqn:E; [| reflexivity].
    apply String.eqb_eq in E. congruence.
  - destruct (String.eqb k' k) eqn:E; simpl.
    + apply String.eqb_eq in E. subst k'.
      destruct (String.eqb k k0) eqn:E0; [| reflexivity].
      apply String.eqb_eq in E0. congruence.
    + rewrite IH. reflexivity.
Qed.

Lemma map_get_In_keys (k : string) (m : JSMap V) :
  In k (map_keys m) <-> map_get k m <> None.
Proof.
  induction m as [| [k' v'] rest IH]; simpl.
  - split; [intros [] | congruence].
  - destruct (String.eqb k' k) eqn:E.
    + apply String.eqb_eq in E. split; [discriminate | auto].
    + apply String.eqb_neq in E. rewrite <- IH. split; [intros [H | H] | auto].
      * contradiction.
      * exact H.
Qed.

(** [set] keeps the keys where they are and puts a new key last. *)
Lemma map_keys_set (k : string) (v : V) (m : JSMap V) :
  map_keys (map_set k v m) =
  match map_get k m with
  | Some _ => map_keys m
  | None => map_keys m ++ [k]
  end.
Proof.
  unfold map_keys.
  induction m as [| [k' v'] rest IH]; simpl; [reflexivity |].
  destruct (String.eqb k' k) eqn:E; simpl; [reflexivity |].
  rewrite IH. destruct (map_get k rest); reflexivity.
Qed.

Lemma map_set_NoDup (k : string) (v : V) (m : JSMap V) :
  NoDup (map_keys m) -> NoDup (map_keys (map_set k v m)).
Proof.
  intros Hnd. rewrite map_keys_set.
  destruct (map_get k m) eqn:E; [exact Hnd |].
  apply NoDup_app; [exact Hnd | repeat constructor; intros [] |].
  intros x Hx [<- | []].
  apply map_get_In_keys in Hx. congruence.
Qed.

(** In a map without repeated keys, the entry at a position is the entry
    of its key. *)
Lemma map_get_nth_error (m : JSMap V) (i : nat) (k : string) (v : V) :
  NoDup (map_keys m) -> nth_error m i = Some (k, v) -> map_get k m = Some v.
Proof.
  revert i. induction m as [| [k' v'] rest IH]; intros i Hnd Hi.
  - destruct i; discriminate.
  - simpl in Hnd. inversion Hnd as [| ? ? Hnotin Hnd']; subst.
    destruct i as [| i]; simpl in *.
    + injection Hi as -> ->. rewrite String.eqb_refl. reflexivity.
    + destruct (String.eqb k' k) eqn:E.
      * apply String.eqb_eq in E. subst k'. exfalso. apply Hnotin.
        apply nth_error_In in Hi. apply (in_map fst) in Hi. exact Hi.
      * apply (IH i); assumption.
Qed.

End SectionMap.

(** ** Registration of a section *)

Section Registration.

Lemma registerSection_missing (sectionId : string) (config : Config) (st : State) :
  getElementById (document (browser st)) sectionId = None ->
  MTS.registerSection sectionId config st =
  (tt, st, [ConsoleWarn ("Section " ++ sectionId ++ " not found")]).
Proof.
  intros H. unfold MTS.registerSection. rewrite run_bind. simpl.
  rewrite H. reflexivity.
Qed.

Lemma registerSection_found (sectionId : string) (config : Config) (st : State)
    (sec : Element) :
  getElementById (document (browser st)) sectionId = Some sec ->
  state_of (MTS.registerSection sectionId config st) =
  mkState
    (mkSystem (visualizer (self st))
       (map_set sectionId
          (MTS.spread_config config
             (mkSectionConfig sec
                (querySelectorAll (document (browser st)) sec
                   (MTS.or_string (cfg_cardSelector config) MTS.defaultCardSelector))
                (MTS.or_string (cfg_layout config) "grid")
                (List.length
                   (querySelectorAll (document (browser st)) sec
                      (MTS.or_string (cfg_cardSelector config)
                         MTS.defaultCardSelector)))
                (cfg_visualizerState config) None))
          (sectionConfigs (self st))))
    (browser st).
Proof.
  intros H. unfold MTS.registerSection. rewrite state_of_bind. simpl.
  rewrite H. reflexivity.
Qed.

(** C8, as stated, fails: on the sample page the hero section has two
    signal cards, and registering it with a configuration that has a
    [cardCount] of [5] stores [5]. *)
Lemma registerSection_config_overrides_cardCount :
  ~ registerSection_counts_cards "hero" Sample.countedConfig Sample.state0.
Proof.
  intros H.
  destruct (H Sample.heroElement eq_refl) as (entry & Hget & Hcount).
  rewrite (@registerSection_found "hero" Sample.countedConfig Sample.state0
             Sample.heroElement eq_refl) in Hget.
  simpl in Hget. injection Hget as <-. simpl in Hcount. discriminate Hcount.
Qed.

(** C8, amended: when the document has no element with the id,
    [registerSection] leaves the state, and with it the section map, as it
    was.  When it has one, the map after the call is the map before with one
    entry set at that id: the entry of the id is the new one, the entry of
    every other id is untouched, and the keys stay in place, a new id coming
    last.  The [cardCount] of the entry is the number of elements that the
    card selector matches within the section, unless the configuration has a
    [cardCount] of its own, which the spread at the end of the entry puts in
    its place. *)
Theorem registerSection_entry :
  forall (sectionId : string) (config : Config) (st : State),
    (getElementById (document (browser st)) sectionId = None ->
     state_of (MTS.registerSection sectionId config st) = st) /\
    (forall sec,
        getElementById (document (browser st)) sectionId = Some sec ->
        exists entry,
          sectionConfigs (self (state_of (MTS.registerSection sectionId config st))) =
            map_set sectionId entry (sectionConfigs (self st)) /\
          map_get sectionId
            (sectionConfigs (self (state_of (MTS.registerSection sectionId config st)))) =
            Some entry /\
          (forall k,
              k <> sectionId ->
              map_get k
                (sectionConfigs
                   (self (state_of (MTS.registerSection sectionId config st)))) =
              map_get k (sectionConfigs (self st))) /\
          map_keys
            (sectionConfigs (self (state_of (MTS.registerSection sectionId config st)))) =
            match map_get sectionId (sectionConfigs (self st)) with
            | Some _ => map_keys (sectionConfigs (self st))
            | None => map_keys (sectionConfigs (self st)) ++ [sectionId]
            end /\
          cardCount entry =
            match cfg_cardCount config with
            | Some n => n
            | None =>
                List.length
                  (querySelectorAll (document (browser st)) sec
                     (MTS.or_string (cfg_cardSelector config) MTS.defaultCardSelector))
            end).
Proof.
  intros sectionId config st. split.
  - intros H. rewrite registerSection_missing by exact H. reflexivity.
  - intros sec H. rewrite registerSection_found with (sec := sec) by exact H. simpl.
    eexists. split; [reflexivity |].
    split; [apply map_get_set_same |].
    split; [intros k Hk; apply map_get_set_other; exact Hk |].
    split; [apply map_keys_set |].
    simpl. destruct (cfg_cardCount config); reflexivity.
Qed.

Lemma registerSection_NoDup (sectionId : string) (config : Config) (st : State) :
  NoDup (map_keys (sectionConfigs (self st))) ->
  NoDup (map_keys
           (sectionConfigs (self (state_of (MTS.registerSection sectionId config st))))).
Proof.
  intros Hnd.
  destruct (getElementById (document (browser st)) sectionId) as [sec |] eqn:E.
  - rewrite registerSection_found with (sec := sec) by exact E.
    simpl. apply map_set_NoDup. exact Hnd.
  - rewrite registerSection_missing by exact E. exact Hnd.
Qed.

End Registration.

(** ** The transitions between the registered sections *)

Section Transitions.

Lemma createMorphTransition_run (fromId toId : string) (st : State) :
  state_of (MTS.createMorphTransition fromId toId st) = st /\
  timelines (events_of (MTS.createMorphTransition fromId toId st)) =
  match map_get fromId (sectionConfigs (self st)),
        map_get toId (sectionConfigs (self st)) with
  | Some fromConfig, Some toConfig => [MTS.scrollTrigger fromConfig toConfig]
  | _, _ => []
  end.
Proof.
  unfold MTS.createMorphTransition. rewrite run_bind. simpl.
  destruct (map_get fromId (sectionConfigs (self st)));
    destruct (map_get toId (sectionConfigs (self st))); split; reflexivity.
Qed.

Lemma flat_map_map {A B C : Type} (f : B -> list C) (g : A -> B) (l : list A) :
  flat_map f (map g l) = flat_map (fun a => f (g a)) l.
Proof.
  induction l as [| a rest IH]; simpl; [reflexivity | rewrite IH; reflexivity].
Qed.

Lemma flat_map_singleton {A B : Type} (f : A -> list B) (g : A -> B) (l : list A) :
  (forall a, In a l -> f a = [g a]) -> flat_map f l = map g l.
Proof.
  induction l as [| a rest IH]; intros H; simpl; [reflexivity |].
  rewrite H by (left; reflexivity). rewrite IH; [reflexivity |].
  intros a' Ha'. apply H. right. exact Ha'.
Qed.

Lemma timelines_flat_map {A : Type} (f : A -> list Event) (l : list A) :
  timelines (flat_map f l) = flat_map (fun a => timelines (f a)) l.
Proof.
  induction l as [| a rest IH]; simpl; [reflexivity |].
  rewrite timelines_app, IH. reflexivity.
Qed.

Lemma consecutive_cons {A : Type} (a b : A) (l : list A) :
  consecutive (a :: b :: l) = (a, b) :: consecutive (b :: l).
Proof. reflexivity. Qed.

Lemma consecutive_length {A : Type} (l : list A) :
  List.length (consecutive l) = (List.length l - 1)%nat.
Proof.
  unfold consecutive. rewrite length_combine.
  destruct l as [| a rest]; [reflexivity |].
  simpl tl. simpl List.length. lia.
Qed.

(** The neighbours of a list, by position. *)
Lemma consecutive_seq {A : Type} (d : A) (l : list A) :
  consecutive l =
  map (fun k => (nth k l d, nth (S k) l d)) (seq 0 (List.length l - 1)).
Proof.
  induction l as [| a rest IH]; [reflexivity |].
  destruct rest as [| b rest]; [reflexivity |].
  rewrite consecutive_cons, IH.
  replace (List.length (a :: b :: rest) - 1)%nat
    with (S (List.length (b :: rest) - 1)) by (simpl; lia).
  rewrite <- cons_seq, <- seq_shift. simpl map at 2. rewrite map_map. reflexivity.
Qed.

Lemma consecutive_nth_error {A : Type} (l : list A) (a b : A) :
  In (a, b) (consecutive l) ->
  exists i, nth_error l i = Some a /\ nth_error l (S i) = Some b.
Proof.
  induction l as [| x rest IH]; [intros [] |].
  destruct rest as [| y rest]; [intros [] |].
  rewrite consecutive_cons. intros [H | H].
  - injection H as -> ->. exists 0%nat. split; reflexivity.
  - destruct (IH H) as (i & Hi & Hi'). exists (S i). split; assumption.
Qed.

Lemma setup_turn_state (sections : list string) (i : Z) (st : State) :
  state_of (MTS.setup_turn sections i st) = st.
Proof.
  unfold MTS.setup_turn.
  destruct (MTS.at_index sections i); [| reflexivity].
  destruct (MTS.at_index sections (i + 1)); [| reflexivity].
  apply createMorphTransition_run.
Qed.

Lemma at_index_of_nat (sections : list string) (k : nat) :
  MTS.at_index sections (Z.of_nat k) = nth_error sections k.
Proof.
  unfold MTS.at_index.
  destruct (Z.ltb_spec (Z.of_nat k) 0); [lia |].
  rewrite Nat2Z.id. reflexivity.
Qed.

Lemma setup_turn_timelines (st : State) (d : SectionConfig) (k : nat) :
  NoDup (map_keys (sectionConfigs (self st))) ->
  (S k < List.length (sectionConfigs (self st)))%nat ->
  timelines
    (events_of
       (MTS.setup_turn (map_keys (sectionConfigs (self st))) (Z.of_nat k) st)) =
  [MTS.scrollTrigger (nth k (map snd (sectionConfigs (self st))) d)
     (nth (S k) (map snd (sectionConfigs (self st))) d)].
Proof.
  intros Hnd Hk. unfold MTS.setup_turn.
  replace (Z.of_nat k + 1)%Z with (Z.of_nat (S k)) by lia.
  rewrite !at_index_of_nat.
  set (m := sectionConfigs (self st)) in *.
  destruct (nth_error m k) as [[k1 e1] |] eqn:E1;
    [| apply nth_error_None in E1; lia].
  destruct (nth_error m (S k)) as [[k2 e2] |] eqn:E2;
    [| apply nth_error_None in E2; lia].
  unfold map_keys. rewrite !nth_error_map, E1, E2. simpl.
  destruct (createMorphTransition_run k1 k2 st) as [_ ->]. fold m.
  rewrite (map_get_nth_error _ _ Hnd E1), (map_get_nth_error _ _ Hnd E2).
  rewrite (nth_error_nth _ _ d (eq_trans (nth_error_map snd k m)
                                  (f_equal (option_map snd) E1))).
  rewrite (nth_error_nth _ _ d (eq_trans (nth_error_map snd (S k) m)
                                  (f_equal (option_map snd) E2))).
  reflexivity.
Qed.

(** The triggers that [setupMorphingTransitions] creates. *)
Lemma timelines_setupMorphingTransitions (st : State) :
  NoDup (map_keys (sectionConfigs (self st))) ->
  timelines (events_of (MTS.setupMorphingTransitions st)) =
  map (fun ft => MTS.scrollTrigger (fst ft) (snd ft))
    (consecutive (map snd (sectionConfigs (self st)))).
Proof.
  intros Hnd. unfold MTS.setupMorphingTransitions.
  rewrite events_of_bind. simpl.
  change (state_of (getState st)) with st.
  rewrite events_of_bind, timelines_app. simpl. rewrite app_nil_r.
  unfold MTS.for_range, forEach.
  destruct (@forEach_from_pure Z
              (MTS.setup_turn (map_keys (sectionConfigs (self st))))
              (setup_turn_state _)
              (map (fun k => (0 + Z.of_nat k)%Z)
                 (seq 0 (Z.to_nat
                           (Z.of_nat (List.length (map_keys (sectionConfigs (self st))))
                            - 1 - 0))))
              0%nat st) as [_ ->].
  rewrite timelines_flat_map, flat_map_map.
  unfold map_keys. rewrite length_map.
  replace (Z.to_nat (Z.of_nat (List.length (sectionConfigs (self st))) - 1 - 0))
    with (List.length (sectionConfigs (self st)) - 1)%nat by lia.
  destruct (sectionConfigs (self st)) as [| [k0 d] rest] eqn:Em; [reflexivity |].
  rewrite <- Em in *.
  rewrite (consecutive_seq d), map_map, length_map.
  apply flat_map_singleton. intros k Hk. apply in_seq in Hk.
  simpl Z.add. fold (map_keys (sectionConfigs (self st))).
  rewrite (setup_turn_timelines st d Hnd) by lia. reflexivity.
Qed.

End Transitions.

Section TransitionsClaim.

Lemma register_all_NoDup (regs : list (string * Config)) (st : State) :
  NoDup (map_keys (sectionConfigs (self st))) ->
  NoDup (map_keys (sectionConfigs (self (register_all regs st)))).
Proof.
  revert st. induction regs as [| r rest IH]; intros st Hnd; simpl.
  - exact Hnd.
  - apply IH. apply registerSection_NoDup. exact Hnd.
Qed.

Lemma registered_NoDup (v : option Visualizer) (b : Browser)
    (regs : list (string * Config)) :
  NoDup (map_keys (sectionConfigs (self (registered v b regs)))).
Proof. apply register_all_NoDup. simpl. constructor. Qed.

(** C7: on a system with [k] registered sections, whatever the calls of
    [registerSection] that led to it, [setupMorphingTransitions] creates
    exactly [max (k - 1) 0] timelines, one for each pair of neighbours of
    the section map, in the order of registration: its callbacks hold the
    entries of the two sections and its trigger is the element of the
    second.  No timeline joins two sections that are not neighbours, and
    with fewer than two sections there is none. *)
Theorem setupMorphingTransitions_neighbours :
  forall (v : option Visualizer) (b : Browser) (regs : list (string * Config)),
    timelines (events_of (MTS.setupMorphingTransitions (registered v b regs))) =
      map (fun ft => MTS.scrollTrigger (fst ft) (snd ft))
        (consecutive (map snd (sectionConfigs (self (registered v b regs))))) /\
    Z.of_nat
      (List.length
         (timelines (events_of (MTS.setupMorphingTransitions (registered v b regs))))) =
      Z.max
        (Z.of_nat (List.length (map_keys (sectionConfigs (self (registered v b regs)))))
         - 1) 0 /\
    (forall tr,
        In tr (timelines (events_of (MTS.setupMorphingTransitions (registered v b regs)))) ->
        trigger tr = section (capturedTo tr) /\
        exists i,
          nth_error (map snd (sectionConfigs (self (registered v b regs)))) i =
            Some (capturedFrom tr) /\
          nth_error (map snd (sectionConfigs (self (registered v b regs)))) (S i) =
            Some (capturedTo tr)) /\
    ((List.length (map_keys (sectionConfigs (self (registered v b regs)))) < 2)%nat ->
     timelines (events_of (MTS.setupMorphingTransitions (registered v b regs))) = []).
Proof.
  intros v b regs.
  pose proof (@timelines_setupMorphingTransitions _ (registered_NoDup v b regs)) as Heq.
  set (st := registered v b regs) in *.
  assert (Hlen : List.length (timelines (events_of (MTS.setupMorphingTransitions st))) =
                 (List.length (map_keys (sectionConfigs (self st))) - 1)%nat).
  { rewrite Heq, length_map, consecutive_length. unfold map_keys.
    rewrite !length_map. reflexivity. }
  split; [exact Heq |].
  split; [rewrite Hlen; lia |].
  split.
  - intros tr Htr. rewrite Heq in Htr. apply in_map_iff in Htr.
    destruct Htr as ([f t] & <- & Hin). simpl.
    split; [reflexivity |]. apply consecutive_nth_error. exact Hin.
  - intros Hk.
    destruct (timelines (events_of (MTS.setupMorphingTransitions st)));
      [reflexivity | simpl in Hlen; lia].
Qed.

End TransitionsClaim.

(** ** Initialization of the application *)

Section Initialization.

Lemma tbind_eval {S A B : Type} (m : T S A) (k : A -> T S B) (st st1 st2 : S)
    (a : A) (c : Completion B) (ev1 ev2 : list Event) :
  m st = (Normal a, st1, ev1) ->
  k a st1 = (c, st2, ev2) ->
  tbind m k st = (c, st2, ev1 ++ ev2).
Proof. intros Hm Hk. unfold tbind. rewrite Hm, Hk. reflexivity. Qed.

Lemma tbind_throw_eval {S A B : Type} (m : T S A) (k : A -> T S B) (st st1 : S)
    (e : string) (ev1 : list Event) :
  m st = (Throw e, st1, ev1) ->
  tbind m k st = (Throw e, st1, ev1).
Proof. intros Hm. unfold tbind. rewrite Hm. reflexivity. Qed.

Lemma try_catch_eval {S : Type} (body : T S unit) (handler : string -> T S unit)
    (st st1 st2 : S) (e : string) (c : Completion unit) (ev1 ev2 : list Event) :
  body st = (Throw e, st1, ev1) ->
  handler e st1 = (c, st2, ev2) ->
  try_catch body handler st = (c, st2, ev1 ++ ev2).
Proof. intros Hb Hh. unfold try_catch. rewrite Hb, Hh. reflexivity. Qed.

(** One statement that completes normally, then the rest. *)
Ltac run_statement := eapply tbind_eval; [reflexivity | cbv beta].

Lemma App_initialize_body_without_webgl (st : App.AppState) (v : Visualizer) :
  App.newWorkingQuantumVisualizer (App.page st) "quantum-background" = Normal v ->
  gl v = false ->
  App.initialize_body st =
  (Throw "Failed to create WebGL context",
   App.mkAppState
     (App.mkApplication (Some v) (App.morphingSystem (App.app st))
        (App.isInitialized (App.app st)))
     (App.page st),
   [LoggerInfo "🌌 Creating WorkingQuantumVisualizer...";
    NewVisualizer "quantum-background"]).
Proof.
  intros Hnew Hgl. unfold App.initialize_body.
  eapply eq_trans.
  - run_statement. run_statement.
    eapply tbind_eval; [rewrite Hnew; reflexivity | cbv beta].
    run_statement. run_statement.
    eapply tbind_throw_eval. rewrite Hgl. reflexivity.
  - reflexivity.
Qed.

Lemma App_initialize_without_webgl (st : App.AppState) (v : Visualizer) :
  App.isInitialized (App.app st) = false ->
  App.newWorkingQuantumVisualizer (App.page st) "quantum-background" = Normal v ->
  gl v = false ->
  App.initialize st =
  (Normal tt,
   App.mkAppState
     (App.mkApplication (Some v) (App.morphingSystem (App.app st)) false)
     (App.page st),
   [LoggerInfo "🌌 Creating WorkingQuantumVisualizer...";
    NewVisualizer "quantum-background";
    LoggerError "Initialization failed:" "Failed to create WebGL context";
    ConsoleError "Failed to create WebGL context"]).
Proof.
  intros Hinit Hnew Hgl. unfold App.initialize.
  eapply eq_trans.
  - run_statement. rewrite Hinit.
    eapply try_catch_eval.
    + apply (App_initialize_body_without_webgl _ Hnew Hgl).
    + reflexivity.
  - rewrite Hinit. reflexivity.
Qed.

Lemma AppDetailed_initialize_body_without_webgl (C : Type)
    (st : AppDetailed.AppState C) (v : Visualizer) :
  AppDetailed.newWorkingQuantumVisualizer (AppDetailed.page st) "quantum-background" =
    Normal v ->
  gl v = false ->
  AppDetailed.initialize_body st =
  (Throw "Failed to create WebGL context",
   AppDetailed.mkAppState
     (AppDetailed.mkApplication (Some v)
        (AppDetailed.detailedScrollChoreographer (AppDetailed.app st))
        (AppDetailed.isInitialized (AppDetailed.app st)))
     (AppDetailed.page st),
   [LoggerInfo "🌌 Creating WorkingQuantumVisualizer...";
    NewVisualizer "quantum-background"]).
Proof.
  intros Hnew Hgl. unfold AppDetailed.initialize_body.
  eapply eq_trans.
  - run_statement. run_statement.
    eapply tbind_eval; [rewrite Hnew; reflexivity | cbv beta].
    run_statement. run_statement.
    eapply tbind_throw_eval. rewrite Hgl. reflexivity.
  - reflexivity.
Qed.

Lemma AppDetailed_initialize_without_webgl (C : Type) (st : AppDetailed.AppState C)
    (v : Visualizer) :
  AppDetailed.isInitialized (AppDetailed.app st) = false ->
  AppDetailed.newWorkingQuantumVisualizer (AppDetailed.page st) "quantum-background" =
    Normal v ->
  gl v = false ->
  AppDetailed.initialize st =
  (Normal tt,
   AppDetailed.mkAppState
     (AppDetailed.mkApplication (Some v)
        (AppDetailed.detailedScrollChoreographer (AppDetailed.app st)) false)
     (AppDetailed.page st),
   [LoggerInfo "🌌 Creating WorkingQuantumVisualizer...";
    NewVisualizer "quantum-background";
    LoggerError "Initialization failed:" "Failed to create WebGL context";
    ConsoleError "Failed to create WebGL context"]).
Proof.
  intros Hinit Hnew Hgl. unfold AppDetailed.initialize.
  eapply eq_trans.
  - run_statement. rewrite Hinit.
    eapply try_catch_eval.
    + apply (AppDetailed_initialize_body_without_webgl _ Hnew Hgl).
    + reflexivity.
  - rewrite Hinit. reflexivity.
Qed.

Lemma App_initialize_again (st : App.AppState) :
  App.isInitialized (App.app st) = true ->
  App.initialize st = (Normal tt, st, [LoggerWarn "Already initialized"]).
Proof.
  destruct st as [[qv ms init] pg].
  cbn [App.app App.isInitialized]. intros ->. reflexivity.
Qed.

Lemma AppDetailed_initialize_again (C : Type) (st : AppDetailed.AppState C) :
  AppDetailed.isInitialized (AppDetailed.app st) = true ->
  AppDetailed.initialize st = (Normal tt, st, [LoggerWarn "Already initialized"]).
Proof.
  destruct st as [[qv ch init] pg].
  cbn [AppDetailed.app AppDetailed.isInitialized]. intros ->. reflexivity.
Qed.

End Initialization.

Section InitializationClaims.

(** On the sample page the first [initialize] succeeds. *)
Lemma initializedApp_isInitialized :
  App.isInitialized (App.app Sample.initializedApp) = true.
Proof. vm_compute. reflexivity. Qed.

(** C6: when the constructor of the visualizer returns an object without
    WebGL context, [initialize] on an application that is not initialized
    completes normally: the error thrown in the [try] block is caught and
    not thrown again.  The events of the call are the announcement, the one
    construction of a visualizer, and the error sent to the logger and to
    the console: nothing is tried a second time, no frame is requested, no
    choreography is set up and [clearSeasEnhancedReady] is not dispatched.
    [isInitialized] stays false and the choreography field is untouched;
    [quantumVisualizer] holds the object without context.  Both variants of
    the application behave so. *)
Theorem initialize_without_webgl :
  (forall (st : App.AppState) (v : Visualizer),
      App.isInitialized (App.app st) = false ->
      App.newWorkingQuantumVisualizer (App.page st) "quantum-background" = Normal v ->
      gl v = false ->
      App.initialize st =
      (Normal tt,
       App.mkAppState
         (App.mkApplication (Some v) (App.morphingSystem (App.app st)) false)
         (App.page st),
       [LoggerInfo "🌌 Creating WorkingQuantumVisualizer...";
        NewVisualizer "quantum-background";
        LoggerError "Initialization failed:" "Failed to create WebGL context";
        ConsoleError "Failed to create WebGL context"])) /\
  (forall (C : Type) (st : AppDetailed.AppState C) (v : Visualizer),
      AppDetailed.isInitialized (AppDetailed.app st) = false ->
      AppDetailed.newWorkingQuantumVisualizer (AppDetailed.page st)
        "quantum-background" = Normal v ->
      gl v = false ->
      AppDetailed.initialize st =
      (Normal tt,
       AppDetailed.mkAppState
         (AppDetailed.mkApplication (Some v)
            (AppDetailed.detailedScrollChoreographer (AppDetailed.app st)) false)
         (AppDetailed.page st),
       [LoggerInfo "🌌 Creating WorkingQuantumVisualizer...";
        NewVisualizer "quantum-background";
        LoggerError "Initialization failed:" "Failed to create WebGL context";
        ConsoleError "Failed to create WebGL context"])).
Proof.
  split.
  - exact App_initialize_without_webgl.
  - exact AppDetailed_initialize_without_webgl.
Qed.

(** On the sample page without WebGL, [initialize] on the new application
    returns normally, does not dispatch [clearSeasEnhancedReady] and leaves
    [isInitialized] false. *)
Lemma initialize_without_webgl_witness :
  fst (fst (App.initialize (fst (App.constructor Sample.appPageWithoutWebGL)))) =
    Normal tt /\
  ~ In (DispatchEvent "clearSeasEnhancedReady")
      (snd (App.initialize (fst (App.constructor Sample.appPageWithoutWebGL)))) /\
  App.isInitialized
    (App.app
       (snd (fst (App.initialize (fst (App.constructor Sample.appPageWithoutWebGL))))))
  = false.
Proof.
  rewrite (proj1 initialize_without_webgl
             (fst (App.constructor Sample.appPageWithoutWebGL))
             Sample.failedVisualizer eq_refl eq_refl eq_refl).
  split; [reflexivity |]. split; [| reflexivity].
  simpl. intros [H | [H | [H | [H | []]]]]; discriminate H.
Defined.

(** C10: once [isInitialized] is true, a call of [initialize] logs the
    warning and does nothing else: it completes normally, the application
    and the page are what they were, field by field, and the warning is the
    only event, so no visualizer is constructed, no frame is requested and
    no scroll trigger is created.  The same holds after any number of
    further calls, and for both variants of the application. *)
Theorem initialize_when_initialized :
  (forall st : App.AppState,
      App.isInitialized (App.app st) = true ->
      App.initialize st = (Normal tt, st, [LoggerWarn "Already initialized"]) /\
      forall n : nat, Nat.iter n (fun s => snd (fst (App.initialize s))) st = st) /\
  (forall (C : Type) (st : AppDetailed.AppState C),
      AppDetailed.isInitialized (AppDetailed.app st) = true ->
      AppDetailed.initialize st = (Normal tt, st, [LoggerWarn "Already initialized"]) /\
      forall n : nat,
        Nat.iter n (fun s => snd (fst (AppDetailed.initialize s))) st = st).
Proof.
  split.
  - intros st H. split; [apply App_initialize_again; exact H |].
    induction n as [| n IH]; [reflexivity |].
    simpl. rewrite IH, (@App_initialize_again st H). reflexivity.
  - intros C st H. split; [apply AppDetailed_initialize_again; exact H |].
    induction n as [| n IH]; [reflexivity |].
    simpl. rewrite IH, (@AppDetailed_initialize_again C st H). reflexivity.
Qed.

(** On the sample page, the application that its first [initialize] has
    initialized is left as it is by the second. *)
Lemma initialize_when_initialized_witness :
  App.isInitialized (App.app Sample.initializedApp) = true /\
  App.initialize Sample.initializedApp =
    (Normal tt, Sample.initializedApp, [LoggerWarn "Already initialized"]).
Proof.
  split; [exact initializedApp_isInitialized |].
  exact (proj1 (proj1 initialize_when_initialized Sample.initializedApp
                  initializedApp_isInitialized)).
Defined.

End InitializationClaims.

(** ** Runs on the sample page *)

Section SampleRuns.
Local Open Scope R_scope.

Example easeInOutCubic_quarter : Num.easeInOutCubic 0.25 = 0.0625.
Proof. rewrite easeInOutCubic_below by lra. lra. Qed.

Example easeInOutCubic_three_quarters : Num.easeInOutCubic 0.75 = 0.9375.
Proof. rewrite easeInOutCubic_above by lra. lra. Qed.

Example lerp_hue_midway : Num.lerp 180 280 0.5 = 230.
Proof. unfold Num.lerp. lra. Qed.

(** At progress [0.35] the cards of the hero section are disassembled and
    the visualizer morphs; the cards of the next section are not assembled
    yet. *)
Example calls_at_035 :
  progress_calls Sample.heroEntry Sample.capabilitiesEntry 0.35 Sample.state0 =
  [Call_disassembleCards [Sample.signalCard1; Sample.signalCard2] (0.35 / 0.4);
   Call_morphVisualizer Presets.hero Presets.capabilities ((0.35 - 0.3) / 0.4)].
Proof.
  unfold progress_calls. rewrite calls_onTransitionProgress.
  destruct (Rlt_dec 0.35 0.4); [| lra].
  destruct (Rge_dec 0.35 0.3); [| lra].
  destruct (Rle_dec 0.35 0.7); [| lra].
  destruct (Rge_dec 0.35 0.6); [lra |].
  reflexivity.
Qed.

(** The sample page has the hero and the capabilities sections and neither
    a research nor a contact section: [initialize] registers the two, joins
    them by one transition and announces that the application is ready. *)
Example sample_initialize_timelines :
  timelines (snd (App.initialize (fst (App.constructor Sample.appPage)))) =
  [MTS.scrollTrigger Sample.heroEntry Sample.capabilitiesEntry].
Proof. vm_compute. reflexivity. Qed.

Example sample_initialize_ready :
  fst (fst (App.initialize (fst (App.constructor Sample.appPage)))) = Normal tt /\
  In (DispatchEvent "clearSeasEnhancedReady")
    (snd (App.initialize (fst (App.constructor Sample.appPage)))).
Proof.
  split; [vm_compute; reflexivity |].
  vm_compute. repeat (try (left; reflexivity); right).
Qed.

End SampleRuns.

(** ** Further properties of the easing functions *)

Section Easing.
Import Num.
Local Open Scope R_scope.

Lemma easeOutBack_factor (t : R) :
  easeOutBack t = t * (2.70158 * (t - 1) ^ 2 + 2 - t).
Proof.
  unfold easeOutBack. cbv zeta.
  assert (H : forall c,
             1 + (c + 1) * (t - 1) ^ 3 + c * (t - 1) ^ 2 =
             t * ((c + 1) * (t - 1) ^ 2 + 2 - t)) by (intros c; ring).
  rewrite H. replace (1.70158 + 1) with 2.70158 by lra. reflexivity.
Qed.

Lemma easeOutBack_excess (t : R) :
  easeOutBack t - 1 = (t - 1) ^ 2 * (2.70158 * t - 1).
Proof. rewrite easeOutBack_factor. ring. Qed.

Lemma easeOutBack_1 : easeOutBack 1 = 1.
Proof. rewrite easeOutBack_factor. ring. Qed.

(** At [0] the eased value is far below the [0.5] from which the content
    of a card is set. *)
Lemma easeOutBack_start : easeOutBack 0 <= 0.25.
Proof. rewrite easeOutBack_factor. lra. Qed.

(** The overshoot on [[0.4, 0.99]] is more than a ten-thousandth. *)
Lemma easeOutBack_margin (t : R) : 0.4 <= t <= 0.99 -> 1.0001 < easeOutBack t.
Proof.
  intros [H0 H1]. pose proof (easeOutBack_excess t) as E.
  assert (Hsq : (t - 1) ^ 2 = (1 - t) * (1 - t)) by ring.
  rewrite Hsq in E.
  destruct (Rle_dec t 0.9) as [Hlo | Hhi].
  - assert (0.1 * 0.1 <= (1 - t) * (1 - t)) by (apply Rmult_le_compat; lra).
    assert (0.1 * 0.1 * 0.08 <= (1 - t) * (1 - t) * (2.70158 * t - 1))
      by (apply Rmult_le_compat; lra).
    lra.
  - assert (0.01 * 0.01 <= (1 - t) * (1 - t)) by (apply Rmult_le_compat; lra).
    assert (0.01 * 0.01 * 1.4 <= (1 - t) * (1 - t) * (2.70158 * t - 1))
      by (apply Rmult_le_compat; lra).
    lra.
Qed.

Lemma cubic_bump (u : R) : 0 <= u <= 1 -> u * u * (1.70158 - 2.70158 * u) <= 0.11.
Proof.
  intros Hu.
  assert (Hcube : 0 <= (u - 0.42) * (u - 0.42) * (u + 0.21))
    by (apply Rmult_le_pos; [apply Rle_0_sqr | lra]).
  assert (Huu : 0 <= u * u) by apply Rle_0_sqr.
  lra.
Qed.

Lemma easeOutBack_at_most (t : R) : 0 <= t <= 1 -> easeOutBack t <= 1.11.
Proof.
  intros [H0 H1]. pose proof (easeOutBack_excess t) as E.
  assert (Hb : (1 - t) * (1 - t) * (1.70158 - 2.70158 * (1 - t)) <= 0.11)
    by (apply cubic_bump; lra).
  replace ((t - 1) ^ 2 * (2.70158 * t - 1))
    with ((1 - t) * (1 - t) * (1.70158 - 2.70158 * (1 - t))) in E; [lra |].
  replace (1.70158 - 2.70158 * (1 - t)) with (2.70158 * t - 1) by lra. ring.
Qed.

(** X1: [easeOutBack] ends at [1], at which every operation of the code is
    exact; it stays below [1.11] on [[0, 1]]; and it overshoots: for every
    [t] from [0.4] to [0.99] its value is above [1.0001]. *)
Theorem easeOutBack_overshoots :
  easeOutBack 1 = 1 /\
  (forall t, 0 <= t <= 1 -> easeOutBack t <= 1.11) /\
  (forall t, 0.4 <= t <= 0.99 -> 1.0001 < easeOutBack t).
Proof.
  split; [exact easeOutBack_1 |].
  split; [exact easeOutBack_at_most | exact easeOutBack_margin].
Qed.

End Easing.

(** ** The visualizer across a transition *)

Section VisualizerWindow.
Import Num.
Local Open Scope R_scope.

(** Outside the window of the visualizer a frame leaves the system as it
    is. *)
Lemma self_outside_window (fromConfig toConfig : SectionConfig) (p : R) (st : State) :
  p < 0.3 \/ 0.7 < p ->
  self (state_of (MTS.onTransitionProgress fromConfig toConfig p st)) = self st.
Proof.
  intros Hp. unfold MTS.onTransitionProgress. cbv zeta.
  rewrite !state_of_bind. cbv beta.
  assert (Hmid : forall s : State,
             self (state_of
                     ((if Rge_dec p 0.3
                       then if Rle_dec p 0.7
                            then MTS.morphVisualizer (visualizerState fromConfig)
                                   (visualizerState toConfig) ((p - 0.3) / 0.4)
                            else ret tt
                       else ret tt) s)) = self s).
  { intros s. destruct (Rge_dec p 0.3); [| reflexivity].
    destruct (Rle_dec p 0.7); [lra | reflexivity]. }
  destruct (Rge_dec p 0.6).
  - rewrite self_assembleCards, Hmid. apply self_before_morph.
  - change (self (state_of (ret tt ?s))) with (self s).
    rewrite Hmid. apply self_before_morph.
Qed.

(** Within the window of the visualizer a frame leaves the parameter
    object that [morphVisualizer] leaves. *)
Lemma params_after_onTransitionProgress (fromConfig toConfig : SectionConfig) (p : R)
    (st : State) (p0 : Params) :
  visualizer_params (self st) = Some p0 ->
  0.3 <= p <= 0.7 ->
  visualizer_params
    (self (state_of (MTS.onTransitionProgress fromConfig toConfig p st))) =
  Some (mkParams
          (lerp (geometry (visualizerState fromConfig))
             (geometry (visualizerState toConfig))
             (easeInOutCubic ((p - 0.3) / 0.4)))
          (lerp (hue (visualizerState fromConfig)) (hue (visualizerState toConfig))
             (easeInOutCubic ((p - 0.3) / 0.4)))
          (lerp (intensity (visualizerState fromConfig))
             (intensity (visualizerState toConfig))
             (easeInOutCubic ((p - 0.3) / 0.4)))
          (lerp (chaos (visualizerState fromConfig)) (chaos (visualizerState toConfig))
             (easeInOutCubic ((p - 0.3) / 0.4)))
          (lerp (gridDensity (visualizerState fromConfig))
             (gridDensity (visualizerState toConfig))
             (easeInOutCubic ((p - 0.3) / 0.4)))
          (sin (easeInOutCubic ((p - 0.3) / 0.4) * PI))
          (params_rot4dXW p0 + 0.002 * easeInOutCubic ((p - 0.3) / 0.4))
          (params_rot4dYW p0 + 0.0015 * easeInOutCubic ((p - 0.3) / 0.4))).
Proof.
  intros Hp0 [Hlo Hhi].
  unfold MTS.onTransitionProgress. cbv zeta. rewrite !state_of_bind. cbv beta.
  match goal with
  | |- context [state_of ((if Rlt_dec p 0.4 then ?a else ?b) st)] =>
      set (st1 := state_of ((if Rlt_dec p 0.4 then a else b) st))
  end.
  assert (H1 : visualizer_params (self st1) = Some p0).
  { unfold st1. rewrite self_before_morph. exact Hp0. }
  destruct (Rge_dec p 0.3) as [_ | Hn]; [| lra].
  destruct (Rle_dec p 0.7) as [_ | Hn]; [| lra].
  pose proof (params_after_morphVisualizer (visualizerState fromConfig)
                (visualizerState toConfig) ((p - 0.3) / 0.4) st1 H1) as H2.
  destruct (Rge_dec p 0.6); [rewrite self_assembleCards |]; exact H2.
Qed.

End VisualizerWindow.

Section VisualizerProperties.
Import Num.
Local Open Scope R_scope.

Lemma sin_eased_range (t : R) :
  0 <= t <= 1 -> 0 <= sin (easeInOutCubic t * PI) <= 1.
Proof.
  intros Ht. pose proof (easeInOutCubic_range Ht) as [He0 He1].
  pose proof PI_RGT_0 as Hpi.
  split.
  - apply sin_ge_0; nra.
  - apply SIN_bound.
Qed.

(** X3: for a progress [t] in [[0, 1]], the [morphFactor] that
    [morphVisualizer] assigns, and leaves in the parameter object, lies in
    [[0, 1]]; it is [0] at the start of the morph and [1] at [t = 0.5]. *)
Theorem morphFactor_peaks_midway :
  forall (fromState toState : VisualizerState) (t : R) (st : State) (p0 : Params),
    0 <= t <= 1 ->
    visualizer_params (self st) = Some p0 ->
    exists v p1,
      In (P_morphFactor, v)
        (param_writes (events_of (MTS.morphVisualizer fromState toState t st))) /\
      visualizer_params (self (state_of (MTS.morphVisualizer fromState toState t st))) =
        Some p1 /\
      params_morphFactor p1 = v /\
      0 <= v <= 1 /\
      (t = 0 -> v = 0) /\ (t = 0.5 -> v = 1).
Proof.
  intros fromState toState t st p0 Ht Hp0.
  exists (sin (easeInOutCubic t * PI)). eexists.
  split; [| split; [apply (params_after_morphVisualizer _ _ _ _ Hp0) |]].
  - rewrite (param_writes_morphVisualizer _ _ _ _ Hp0). simpl. auto 10.
  - split; [reflexivity |]. split; [apply sin_eased_range; exact Ht |].
    split; intros ->.
    + rewrite easeInOutCubic_0, Rmult_0_l. apply sin_0.
    + rewrite easeInOutCubic_half. replace (0.5 * PI) with (PI / 2) by lra.
      apply sin_PI2.
Qed.

Lemma morphFactor_peaks_midway_witness :
  exists v,
    In (P_morphFactor, v)
      (param_writes
         (events_of (MTS.morphVisualizer Presets.hero Presets.capabilities 0.5
                       Sample.state0))) /\
    v = 1.
Proof.
  assert (H : 0 <= 0.5 <= 1) by lra.
  destruct (@morphFactor_peaks_midway Presets.hero Presets.capabilities 0.5
              Sample.state0 Sample.zeroParams H eq_refl)
    as (v & p1 & Hin & _ & _ & _ & _ & Hhalf).
  exists v. split; [exact Hin | exact (Hhalf eq_refl)].
Defined.

(** X4: a frame outside the window of the visualizer, that is with a
    progress below [0.3] or above [0.7], leaves the system and its
    parameter object untouched.  The frame at [0.3], the first of the
    window, leaves in [geometry], [hue], [intensity], [chaos] and
    [gridDensity] the values of the from preset, and a [morphFactor] of
    [0]. *)
Theorem visualizer_window_edges :
  forall (fromConfig toConfig : SectionConfig) (st : State) (p0 : Params),
    visualizer_params (self st) = Some p0 ->
    (forall p,
        p < 0.3 \/ 0.7 < p ->
        self (state_of (MTS.onTransitionProgress fromConfig toConfig p st)) = self st) /\
    (exists p1,
        visualizer_params
          (self (state_of (MTS.onTransitionProgress fromConfig toConfig 0.3 st))) =
          Some p1 /\
        params_geometry p1 = geometry (visualizerState fromConfig) /\
        params_hue p1 = hue (visualizerState fromConfig) /\
        params_intensity p1 = intensity (visualizerState fromConfig) /\
        params_chaos p1 = chaos (visualizerState fromConfig) /\
        params_gridDensity p1 = gridDensity (visualizerState fromConfig) /\
        params_morphFactor p1 = 0).
Proof.
  intros fromConfig toConfig st p0 Hp0.
  split; [intros p Hp; apply self_outside_window; exact Hp |].
  eexists. split.
  - apply (params_after_onTransitionProgress fromConfig toConfig st Hp0). lra.
  - simpl. replace ((0.3 - 0.3) / 0.4) with 0 by lra.
    rewrite easeInOutCubic_0, !lerp_0, Rmult_0_l, sin_0. repeat split; reflexivity.
Qed.

Lemma visualizer_window_edges_witness :
  exists p1,
    visualizer_params
      (self (state_of
               (MTS.onTransitionProgress Sample.heroEntry Sample.capabilitiesEntry 0.3
                  Sample.state0))) = Some p1 /\
    params_hue p1 = 180.
Proof.
  destruct (@visualizer_window_edges Sample.heroEntry Sample.capabilitiesEntry
              Sample.state0 Sample.zeroParams eq_refl)
    as (_ & p1 & Hp1 & _ & Hhue & _).
  exists p1. split; [exact Hp1 | exact Hhue].
Defined.

(** X5: a frame never turns [rot4dXW] or [rot4dYW] back, whatever its
    progress: it leaves a parameter object when there was one, with
    [rot4dXW] between its previous value and that value plus [0.002], and
    [rot4dYW] between its previous value and that value plus [0.0015]. *)
Theorem rot4d_never_decreases :
  forall (fromConfig toConfig : SectionConfig) (p : R) (st : State) (p0 : Params),
    visualizer_params (self st) = Some p0 ->
    exists p1,
      visualizer_params
        (self (state_of (MTS.onTransitionProgress fromConfig toConfig p st))) =
        Some p1 /\
      params_rot4dXW p0 <= params_rot4dXW p1 <= params_rot4dXW p0 + 0.002 /\
      params_rot4dYW p0 <= params_rot4dYW p1 <= params_rot4dYW p0 + 0.0015.
Proof.
  intros fromConfig toConfig p st p0 Hp0.
  destruct (Rlt_dec p 0.3) as [Hlo | Hlo].
  - exists p0. rewrite self_outside_window by (left; exact Hlo).
    split; [exact Hp0 | lra].
  - destruct (Rlt_dec 0.7 p) as [Hhi | Hhi].
    + exists p0. rewrite self_outside_window by (right; exact Hhi).
      split; [exact Hp0 | lra].
    + assert (Hp : 0.3 <= p <= 0.7) by lra.
      eexists. split; [apply (params_after_onTransitionProgress _ _ _ Hp0 Hp) |].
      assert (Hq : 0 <= (p - 0.3) / 0.4 <= 1) by (split; lra).
      pose proof (easeInOutCubic_range Hq) as He. simpl. lra.
Qed.

Lemma rot4d_never_decreases_witness :
  exists p1,
    visualizer_params
      (self (state_of
               (MTS.onTransitionProgress Sample.heroEntry Sample.capabilitiesEntry 0.5
                  Sample.state0))) = Some p1 /\
    0 <= params_rot4dXW p1 <= 0.002.
Proof.
  destruct (@rot4d_never_decreases Sample.heroEntry Sample.capabilitiesEntry 0.5
              Sample.state0 Sample.zeroParams eq_refl) as (p1 & Hp1 & HXW & _).
  exists p1. split; [exact Hp1 |]. simpl in HXW. lra.
Defined.

End VisualizerProperties.

(** ** The cards across a transition *)

Section CardLemmas.
Import Num.
Local Open Scope R_scope.

Lemma gsap_sets_morphVisualizer (a b : VisualizerState) (t : R) (st : State) :
  gsap_sets (events_of (MTS.morphVisualizer a b t st)) = [].
Proof.
  destruct st as [[vis sc] br].
  destruct vis as [[g [p' |]] |]; reflexivity.
Qed.

(** The [gsap.set] calls of a frame are those of the phase of the cards
    that runs in it. *)
Lemma gsap_sets_onTransitionProgress (fromConfig toConfig : SectionConfig) (p : R)
    (st : State) :
  (p < 0.4 ->
   gsap_sets (events_of (MTS.onTransitionProgress fromConfig toConfig p st)) =
   gsap_sets (events_of (MTS.disassembleCards (cards fromConfig) (p / 0.4) st))) /\
  (0.4 <= p < 0.6 ->
   gsap_sets (events_of (MTS.onTransitionProgress fromConfig toConfig p st)) = []).
Proof.
  unfold MTS.onTransitionProgress. cbv zeta.
  rewrite !events_of_bind, !gsap_sets_app. cbv beta.
  split; intros Hp.
  - destruct (Rlt_dec p 0.4) as [_ | Hn]; [| lra].
    destruct (Rge_dec p 0.6) as [Hn | _]; [lra |].
    assert (Hm : forall s : State,
               gsap_sets
                 (events_of
                    ((if Rge_dec p 0.3
                      then if Rle_dec p 0.7
                           then MTS.morphVisualizer (visualizerState fromConfig)
                                  (visualizerState toConfig) ((p - 0.3) / 0.4)
                           else ret tt
                      else ret tt) s)) = []).
    { intros s. destruct (Rge_dec p 0.3); [| reflexivity].
      destruct (Rle_dec p 0.7); [apply gsap_sets_morphVisualizer | reflexivity]. }
    rewrite Hm. simpl. rewrite app_nil_r. reflexivity.
  - destruct (Rlt_dec p 0.4) as [Hn | _]; [lra |].
    destruct (Rge_dec p 0.3) as [_ | Hn]; [| lra].
    destruct (Rle_dec p 0.7) as [_ | Hn]; [| lra].
    destruct (Rge_dec p 0.6) as [Hn | _]; [lra |].
    rewrite gsap_sets_morphVisualizer. reflexivity.
Qed.

Lemma disassembleCards_targets (cs : list Element) (q : R) (st : State) :
  map fst (gsap_sets (events_of (MTS.disassembleCards cs q st))) = cs.
Proof.
  unfold MTS.disassembleCards. rewrite events_of_bind, gsap_sets_app. simpl.
  unfold forEach.
  rewrite (forEach_from_targets (fun c => c)); [apply map_id |].
  intros card i st'. rewrite events_of_bind. reflexivity.
Qed.

Lemma clamp01_below_1 (v : R) : v < 1 -> clamp01 v < 1.
Proof.
  intros Hv. unfold clamp01, Rmax, Rmin.
  destruct (Rle_dec 1 v); destruct (Rle_dec 0 _); lra.
Qed.

Lemma clamp01_nonpositive (v : R) : v <= 0 -> clamp01 v = 0.
Proof.
  intros Hv. unfold clamp01, Rmax, Rmin.
  destruct (Rle_dec 1 v); destruct (Rle_dec 0 _); lra.
Qed.

(** Every event of a loop has a property that every event of its body
    has when run from a state that satisfies an invariant of the body. *)
Lemma forEach_from_Forall_inv {A : Type} (Inv : State -> Prop) (P : Event -> Prop)
    (f : A -> nat -> M unit) :
  (forall a i st,
      Inv st -> Inv (state_of (f a i st)) /\ Forall P (events_of (f a i st))) ->
  forall l i st, Inv st -> Forall P (events_of (forEach_from l i f st)).
Proof.
  intros Hf l. induction l as [| a rest IH]; intros i st Hst; simpl.
  - constructor.
  - rewrite events_of_bind. destruct (Hf a i st Hst) as [Hinv Hev].
    apply Forall_app. split; [exact Hev | apply IH; exact Hinv].
Qed.

(** The events of a loop over a list in two parts. *)
Lemma forEach_from_app {A : Type} (f : A -> nat -> M unit) (l1 l2 : list A) :
  forall i st,
    events_of (forEach_from (l1 ++ l2) i f st) =
    events_of (forEach_from l1 i f st) ++
    events_of (forEach_from l2 (i + List.length l1)
                 f (state_of (forEach_from l1 i f st))) /\
    state_of (forEach_from (l1 ++ l2) i f st) =
    state_of (forEach_from l2 (i + List.length l1)
                f (state_of (forEach_from l1 i f st))).
Proof.
  induction l1 as [| a rest IH]; intros i st; simpl.
  - rewrite Nat.add_0_r. split; reflexivity.
  - rewrite !events_of_bind, !state_of_bind.
    destruct (IH (S i) (state_of (f a i st))) as [He Hs].
    rewrite He, Hs, app_assoc, Nat.add_succ_r. split; reflexivity.
Qed.

End CardLemmas.

Section Disassembly.
Import Num.
Local Open Scope R_scope.

Ltac in_vars H :=
  simpl in H;
  repeat match type of H with
         | _ \/ _ => destruct H as [H | H]
         | False => contradiction
         end;
  try discriminate H.

(** X6: a frame with a progress below [0.4] sets the cards of the from
    section and no other element: its calls of [gsap.set] are those of
    [disassembleCards] on these cards with progress [p / 0.4], one for each
    card, in order, also when the visualizer morphs in the same frame; the
    cards of the to section and their content are not touched.  Each call
    sets an opacity in [[0, 1]], a scale in [[0.5, 1]] and a blur radius in
    [[0, 12]]. *)
Theorem early_frames_set_from_cards :
  forall (fromConfig toConfig : SectionConfig) (p : R) (st : State),
    p < 0.4 ->
    gsap_sets (events_of (MTS.onTransitionProgress fromConfig toConfig p st)) =
      gsap_sets (events_of (MTS.disassembleCards (cards fromConfig) (p / 0.4) st)) /\
    map fst (gsap_sets (events_of (MTS.onTransitionProgress fromConfig toConfig p st))) =
      cards fromConfig /\
    Forall (fun tv => disassembled_style_in_range (snd tv))
      (gsap_sets (events_of (MTS.onTransitionProgress fromConfig toConfig p st))).
Proof.
  intros fromConfig toConfig p st Hp.
  rewrite (proj1 (gsap_sets_onTransitionProgress fromConfig toConfig p st) Hp).
  split; [reflexivity |].
  split; [apply disassembleCards_targets |].
  apply gsap_sets_Forall.
  unfold MTS.disassembleCards. rewrite events_of_bind.
  apply Forall_app. split; [apply Forall_cons; [exact I | apply Forall_nil] |].
  apply forEach_from_Forall
    with (P := fun e => match e with
                        | GsapSet _ vars => disassembled_style_in_range vars
                        | _ => True
                        end).
  intros card i st'. rewrite events_of_bind. simpl.
  pose proof (clamp01_range (p / 0.4 - INR i * 0.1)) as Hc.
  apply Forall_cons; [| apply Forall_nil].
  unfold disassembled_style_in_range.
  repeat (apply Forall_cons; [simpl; first [exact I | lra] |]).
  apply Forall_nil.
Qed.

Lemma early_frames_set_from_cards_witness :
  map fst
    (gsap_sets
       (events_of
          (MTS.onTransitionProgress Sample.heroEntry Sample.capabilitiesEntry 0.35
             Sample.state0))) =
  [Sample.signalCard1; Sample.signalCard2].
Proof.
  assert (H : 0.35 < 0.4) by lra.
  exact (proj1 (proj2 (@early_frames_set_from_cards Sample.heroEntry
                         Sample.capabilitiesEntry 0.35 Sample.state0 H))).
Defined.

(** X7: [disassembleCards] with a progress of at most [1] leaves the
    cards from the eleventh on where they are: the call of [gsap.set] on a
    card of index [10] or more sets no offset, no rotation, scale [1],
    opacity [1] and no blur. *)
Theorem disassembleCards_spares_late_cards :
  forall (cs : list Element) (progress : R) (st : State) (i : nat)
         (card : Element) (vars : Vars),
    progress <= 1 ->
    (10 <= i)%nat ->
    nth_error (gsap_sets (events_of (MTS.disassembleCards cs progress st))) i =
      Some (card, vars) ->
    nth_error cs i = Some card /\ vars = restPose.
Proof.
  intros cs progress st i card vars Hq Hi.
  unfold MTS.disassembleCards.
  rewrite events_of_bind, gsap_sets_app. simpl. unfold forEach. intros H.
  apply (forEach_from_nth (fun c => c)
           (fun i vars => (10 <= i)%nat -> vars = restPose)) in H.
  - simpl in H. rewrite map_id in H. split; [apply H | apply H; exact Hi].
  - intros a k st'. rewrite events_of_bind. simpl. eexists. split; [reflexivity |].
    intros Hk. apply le_INR in Hk.
    assert (H10 : INR 10 = 10) by (simpl; lra). rewrite H10 in Hk.
    rewrite clamp01_nonpositive by lra.
    unfold restPose. repeat (f_equal; try lra).
Qed.

Lemma disassembleCards_spares_late_cards_witness :
  exists card vars,
    nth_error
      (gsap_sets (events_of (MTS.disassembleCards Sample.elevenCards 1 Sample.state0)))
      10 = Some (card, vars) /\
    vars = restPose.
Proof.
  assert (H1 : 1 <= 1) by lra.
  assert (H10 : (10 <= 10)%nat) by lia.
  pose proof (f_equal (fun l => nth_error l 10)
                (disassembleCards_targets Sample.elevenCards 1 Sample.state0)) as Ht.
  cbv beta in Ht. rewrite nth_error_map in Ht.
  destruct (nth_error
              (gsap_sets
                 (events_of (MTS.disassembleCards Sample.elevenCards 1 Sample.state0)))
              10) as [[card vars] |] eqn:Hn; [| discriminate Ht].
  exists card, vars. split; [reflexivity |].
  exact (proj2 (@disassembleCards_spares_late_cards Sample.elevenCards 1 Sample.state0
                  10%nat card vars H1 H10 Hn)).
Defined.

Lemma scatter_offset (c d : R) : -1 <= c <= 1 -> 0 <= d <= 200 -> -200 <= c * d <= 200.
Proof. intros Hc Hd. split; nra. Qed.

(** X8: [disassembleCards] moves no card further than [200] from its
    place along either axis, whatever the progress, the number of cards and
    the draws of [Math.random]; and when the draws lie in [[0, 1]], it
    turns no card by more than [22.5] either way. *)
Theorem disassembleCards_scatter_bounds :
  forall (cs : list Element) (progress : R) (st : State),
    Forall (fun tv => within_scatter_box (snd tv))
      (gsap_sets (events_of (MTS.disassembleCards cs progress st))) /\
    (draws_in_unit st ->
     Forall (fun tv => rotation_bounded (snd tv))
       (gsap_sets (events_of (MTS.disassembleCards cs progress st)))).
Proof.
  intros cs progress st. split.
  - apply gsap_sets_Forall.
    unfold MTS.disassembleCards. rewrite events_of_bind.
    apply Forall_app. split; [apply Forall_cons; [exact I | apply Forall_nil] |].
    apply forEach_from_Forall
      with (P := fun e => match e with
                          | GsapSet _ vars => within_scatter_box vars
                          | _ => True
                          end).
    intros card i st'. rewrite events_of_bind. simpl.
    pose proof (clamp01_range (progress - INR i * 0.1)) as Hc.
    apply Forall_cons; [| apply Forall_nil].
    intros k v Hin Hk. in_vars Hin; injection Hin as <- <-;
      try (destruct Hk as [Hk | Hk]; discriminate Hk).
    + apply scatter_offset; [apply COS_bound | lra].
    + apply scatter_offset; [apply SIN_bound | lra].
  - intros Hdraws. apply gsap_sets_Forall.
    unfold MTS.disassembleCards. rewrite events_of_bind.
    apply Forall_app. split; [apply Forall_cons; [exact I | apply Forall_nil] |].
    apply forEach_from_Forall_inv
      with (Inv := draws_in_unit)
           (P := fun e => match e with
                          | GsapSet _ vars => rotation_bounded vars
                          | _ => True
                          end);
      [| exact Hdraws].
    intros card i st' Hst'. rewrite events_of_bind, state_of_bind.
    split; [exact Hst' |]. simpl.
    pose proof (clamp01_range (progress - INR i * 0.1)) as Hc.
    pose proof (Hst' (drawn (browser st'))) as Hr.
    apply Forall_cons; [| apply Forall_nil].
    intros v Hv. in_vars Hv. injection Hv as <-. nra.
Qed.

Lemma disassembleCards_scatter_bounds_witness :
  draws_in_unit Sample.state0 /\
  Forall (fun tv => rotation_bounded (snd tv))
    (gsap_sets
       (events_of (MTS.disassembleCards (cards Sample.heroEntry) 0.7 Sample.state0))).
Proof.
  assert (H : draws_in_unit Sample.state0) by (intros n; simpl; lra).
  split; [exact H |].
  exact (proj2 (@disassembleCards_scatter_bounds (cards Sample.heroEntry) 0.7
                  Sample.state0) H).
Defined.

End Disassembly.

Section Assembly.
Import Num.
Local Open Scope R_scope.

(** A loop whose body, from some index on, leaves the state alone and
    emits one event for its element. *)
Lemma forEach_from_single {A : Type} (g : A -> Event) (f : A -> nat -> M unit)
    (k : nat) :
  (forall a i st, (k <= i)%nat -> f a i st = (tt, st, [g a])) ->
  forall l i st,
    (k <= i)%nat ->
    events_of (forEach_from l i f st) = map g l /\
    state_of (forEach_from l i f st) = st.
Proof.
  intros Hf l. induction l as [| a rest IH]; intros i st Hi; simpl.
  - split; reflexivity.
  - rewrite events_of_bind, state_of_bind, (Hf a i st Hi).
    change (state_of (tt, st, [g a])) with st.
    change (events_of (tt, st, [g a])) with [g a].
    destruct (IH (S i) st (Nat.le_trans _ _ _ Hi (Nat.le_succ_diag_r i))) as [He Hs].
    rewrite He, Hs. split; reflexivity.
Qed.

(** The cards that [assembleCards] reaches at an index whose delay is not
    below the progress get the style of the eased value at [0], and their
    content is not touched. *)
Lemma assembleCards_loop_hidden (q : R) (k : nat) (l : list Element) (i : nat)
    (st : State) :
  q <= INR k * 0.15 ->
  (k <= i)%nat ->
  events_of
    (forEach_from l i
       (fun (card : Element) (i : nat) =>
          (gsap_set card
             [(X, 0); (Y, 0); (Rotation, 0);
              (Scale, 0.8 + easeOutBack (clamp01 (q - INR i * 0.15)) * 0.2);
              (Opacity, easeOutBack (clamp01 (q - INR i * 0.15)));
              (FilterBlur, (1 - easeOutBack (clamp01 (q - INR i * 0.15))) * 8)] ;;
           (if Rgt_dec (easeOutBack (clamp01 (q - INR i * 0.15))) 0.5
            then
              st <- getState ;;
              forEach_from
                (querySelectorAll (document (browser st)) card "h2, p, .signal-metadata")
                0
                (fun (el : Element) (_ : nat) =>
                   gsap_set el
                     [(Opacity,
                       (easeOutBack (clamp01 (q - INR i * 0.15)) - 0.5) / 0.5);
                      (Y,
                       (1 - (easeOutBack (clamp01 (q - INR i * 0.15)) - 0.5) / 0.5)
                       * 20)])
            else ret tt))%method) st) =
  map (fun card => GsapSet card (assembledPose (easeOutBack 0))) l.
Proof.
  intros Hq Hi.
  apply (forEach_from_single
           (fun card => GsapSet card (assembledPose (easeOutBack 0)))) with (k := k);
    [| exact Hi].
  intros card j st' Hj. apply le_INR in Hj.
  rewrite clamp01_nonpositive by nra.
  pose proof easeOutBack_start as H0.
  destruct (Rgt_dec (easeOutBack 0) 0.5) as [Hn | _]; [lra |].
  reflexivity.
Qed.

Lemma gsap_sets_hidden (l : list Element) :
  gsap_sets (map (fun card => GsapSet card (assembledPose (easeOutBack 0))) l) =
  map (fun card => (card, assembledPose (easeOutBack 0))) l.
Proof.
  induction l as [| a rest IH]; [reflexivity |].
  unfold gsap_sets in *. simpl. rewrite IH. reflexivity.
Qed.

Lemma state_of_assembleCards_loop (q : R) (cs : list Element) (i : nat) (st : State) :
  forall f : Element -> nat -> M unit,
    (forall a j s, state_of (f a j s) = s) ->
    state_of (forEach_from cs i f st) = st.
Proof.
  intros f Hf. revert i st. induction cs as [| a rest IH]; intros i st; simpl.
  - reflexivity.
  - rewrite state_of_bind, IH. apply Hf.
Qed.

(** [assembleCards] leaves the state as it is. *)
Lemma state_of_assembleCards (cs : list Element) (q : R) (st : State) :
  state_of (MTS.assembleCards cs q st) = st.
Proof.
  unfold MTS.assembleCards. rewrite state_of_bind. unfold forEach.
  apply (state_of_assembleCards_loop q). intros card j s.
  rewrite state_of_bind.
  destruct (Rgt_dec _ _); [| reflexivity].
  rewrite state_of_bind. unfold forEach.
  apply (state_of_assembleCards_loop q). intros el k s'. reflexivity.
Qed.

(** X9: [assembleCards] with a progress of at most [1] brings in seven
    cards at most.  On a list of cards that goes on after at least seven,
    the calls of [gsap.set] are those for the front of the list, followed by
    one call for each of the other cards, which sets what the progress [0]
    of the card gives whatever the progress of the phase: no offset, no
    rotation, and the scale, opacity and blur radius of the eased value
    [easeOutBack(0)].  The content of these cards is not set.  With a
    progress that is not above [0], every card gets this one call. *)
Theorem assembleCards_hides_late_cards :
  forall (front rest : list Element) (progress : R) (st : State),
    (progress <= 1 ->
     (7 <= List.length front)%nat ->
     gsap_sets (events_of (MTS.assembleCards (front ++ rest) progress st)) =
     gsap_sets (events_of (MTS.assembleCards front progress st)) ++
     map (fun card => (card, assembledPose (easeOutBack 0))) rest) /\
    (progress <= 0 ->
     gsap_sets (events_of (MTS.assembleCards rest progress st)) =
     map (fun card => (card, assembledPose (easeOutBack 0))) rest).
Proof.
  intros front rest q st. split.
  - intros Hq Hlen.
    unfold MTS.assembleCards. rewrite !events_of_bind, !gsap_sets_app. simpl.
    unfold forEach.
    match goal with
    | |- context [forEach_from (front ++ rest) 0 ?f ?s] =>
        destruct (forEach_from_app f front rest 0 s) as [He _]; rewrite He
    end.
    rewrite gsap_sets_app. f_equal.
    rewrite (@assembleCards_loop_hidden q 7).
    + apply gsap_sets_hidden.
    + simpl. lra.
    + simpl. exact Hlen.
  - intros Hq. unfold MTS.assembleCards.
    rewrite events_of_bind, gsap_sets_app. simpl. unfold forEach.
    rewrite (@assembleCards_loop_hidden q 0).
    + apply gsap_sets_hidden.
    + simpl. lra.
    + apply Nat.le_refl.
Qed.

Lemma assembleCards_hides_late_cards_witness :
  exists front last,
    Sample.eightCards = front ++ [last] /\
    gsap_sets (events_of (MTS.assembleCards Sample.eightCards 1 Sample.state0)) =
    gsap_sets (events_of (MTS.assembleCards front 1 Sample.state0)) ++
    [(last, assembledPose (easeOutBack 0))].
Proof.
  assert (H1 : 1 <= 1) by lra.
  exists (firstn 7 Sample.eightCards), (mkElement 207 "").
  split; [reflexivity |].
  assert (H7 : (7 <= List.length (firstn 7 Sample.eightCards))%nat)
    by (simpl; lia).
  exact (proj1 (@assembleCards_hides_late_cards (firstn 7 Sample.eightCards)
                  [mkElement 207 ""] 1 Sample.state0) H1 H7).
Defined.

End Assembly.

Section AssemblyProperties.
Import Num.
Local Open Scope R_scope.

(** X10: [assembleCards] overshoots.  For a progress from [0.4] to
    [0.99], the first call of [gsap.set] is on the first card and sets the
    style of the eased progress [easeOutBack(progress)] as it is, without a
    clamp: an opacity above [1.0001], a scale above [1.00002] and a blur
    radius below [-0.0008]. *)
Theorem assembleCards_overshoots :
  forall (card : Element) (rest : list Element) (progress : R) (st : State),
    0.4 <= progress <= 0.99 ->
    exists others,
      gsap_sets (events_of (MTS.assembleCards (card :: rest) progress st)) =
        (card, assembledPose (easeOutBack progress)) :: others /\
      In (Opacity, easeOutBack progress) (assembledPose (easeOutBack progress)) /\
      In (Scale, 0.8 + easeOutBack progress * 0.2)
        (assembledPose (easeOutBack progress)) /\
      In (FilterBlur, (1 - easeOutBack progress) * 8)
        (assembledPose (easeOutBack progress)) /\
      1.0001 < easeOutBack progress /\
      1.00002 < 0.8 + easeOutBack progress * 0.2 /\
      (1 - easeOutBack progress) * 8 < -0.0008.
Proof.
  intros card rest q st Hq.
  unfold MTS.assembleCards. rewrite events_of_bind, gsap_sets_app.
  unfold forEach. simpl forEach_from. rewrite events_of_bind, gsap_sets_app.
  rewrite events_of_bind, gsap_sets_app.
  assert (Hc : clamp01 (q - 0 * 0.15) = q).
  { replace (q - 0 * 0.15) with q by ring. apply clamp01_inside. lra. }
  cbv zeta. change (INR 0) with 0. rewrite Hc.
  pose proof (easeOutBack_margin Hq) as Ho.
  eexists. split; [simpl; reflexivity |].
  unfold assembledPose. simpl. repeat split; auto 10; lra.
Qed.

Lemma assembleCards_overshoots_witness :
  1.0001 < easeOutBack 0.5 /\
  exists others,
    gsap_sets
      (events_of (MTS.assembleCards (cards Sample.capabilitiesEntry) 0.5 Sample.state0)) =
      (Sample.capabilityCard1, assembledPose (easeOutBack 0.5)) :: others.
Proof.
  assert (H : 0.4 <= 0.5 <= 0.99) by lra.
  destruct (@assembleCards_overshoots Sample.capabilityCard1 [] 0.5 Sample.state0 H)
    as (others & Heq & _ & _ & _ & Hgt & _).
  split; [exact Hgt |]. exists others. exact Heq.
Defined.

Lemma gsap_sets_same_vars (vars : Vars) (l : list Element) :
  gsap_sets (map (fun card => GsapSet card vars) l) =
  map (fun card => (card, vars)) l.
Proof.
  induction l as [| a rest IH]; [reflexivity |].
  unfold gsap_sets in *. simpl. rewrite IH. reflexivity.
Qed.

Lemma onTransitionStart_eval (fromConfig toConfig : SectionConfig) (st : State) :
  events_of (MTS.onTransitionStart fromConfig toConfig st) =
  ConsoleLog ("🎬 Starting morph: " ++ elementId (section fromConfig) ++
              " → " ++ elementId (section toConfig)) ::
  map (fun card => GsapSet card startPose) (cards toConfig) /\
  state_of (MTS.onTransitionStart fromConfig toConfig st) = st.
Proof.
  unfold MTS.onTransitionStart. rewrite events_of_bind, state_of_bind.
  unfold forEach.
  destruct (@forEach_from_single Element (fun card => GsapSet card startPose)
              (fun card _ => gsap_set card [(Opacity, 0); (Scale, 0.8); (FilterBlur, 8)])
              0%nat (fun a i s _ => eq_refl) (cards toConfig) 0%nat
              (state_of
                 (emit
                    (ConsoleLog
                       ("🎬 Starting morph: " ++ elementId (section fromConfig) ++
                        " → " ++ elementId (section toConfig))) st))
              (Nat.le_0_l 0)) as [He Hs].
  rewrite He, Hs. split; reflexivity.
Qed.

(** X11: [onTransitionStart] prepares the cards of the to section and
    nothing else: it logs the two ids, then calls [gsap.set] once on each
    card of the to section, in order, with opacity [0], scale [0.8] and a
    blur radius of [8], and leaves the state as it is.  The cards of the
    from section are not touched, and no parameter is assigned. *)
Theorem onTransitionStart_hides_incoming_cards :
  forall (fromConfig toConfig : SectionConfig) (st : State),
    events_of (MTS.onTransitionStart fromConfig toConfig st) =
      ConsoleLog ("🎬 Starting morph: " ++ elementId (section fromConfig) ++
                  " → " ++ elementId (section toConfig)) ::
      map (fun card => GsapSet card startPose) (cards toConfig) /\
    gsap_sets (events_of (MTS.onTransitionStart fromConfig toConfig st)) =
      map (fun card => (card, startPose)) (cards toConfig) /\
    param_writes (events_of (MTS.onTransitionStart fromConfig toConfig st)) = [] /\
    state_of (MTS.onTransitionStart fromConfig toConfig st) = st.
Proof.
  intros fromConfig toConfig st.
  destruct (onTransitionStart_eval fromConfig toConfig st) as [He Hs].
  rewrite He. clear He.
  split; [reflexivity |]. split; [| split; [| exact Hs]].
  - unfold gsap_sets. cbn [flat_map app]. apply gsap_sets_same_vars.
  - unfold param_writes. cbn [flat_map app].
    induction (cards toConfig) as [| a rest IH]; [reflexivity | exact IH].
Qed.

(** X12: between the two phases of the cards there is a gap: a frame with
    a progress from [0.4] up to, and not including, [0.6] calls [gsap.set]
    on no element.  And no frame runs both phases: whatever the progress,
    [disassembleCards] and [assembleCards] are not both called. *)
Theorem card_phases_never_meet :
  forall (fromConfig toConfig : SectionConfig) (p : R) (st : State),
    (0.4 <= p < 0.6 ->
     gsap_sets (events_of (MTS.onTransitionProgress fromConfig toConfig p st)) = []) /\
    ~ (exists l q l' q',
          In (Call_disassembleCards l q) (progress_calls fromConfig toConfig p st) /\
          In (Call_assembleCards l' q') (progress_calls fromConfig toConfig p st)).
Proof.
  intros fromConfig toConfig p st. split.
  - apply gsap_sets_onTransitionProgress.
  - intros (l & q & l' & q' & Hd & Ha). unfold progress_calls in *.
    rewrite calls_onTransitionProgress in Hd, Ha.
    destruct (Rlt_dec p 0.4); destruct (Rge_dec p 0.3); destruct (Rle_dec p 0.7);
      destruct (Rge_dec p 0.6); simpl in Hd, Ha;
      repeat match goal with
             | H : _ \/ _ |- _ => destruct H
             | H : False |- _ => contradiction
             end;
      try discriminate; lra.
Qed.

End AssemblyProperties.

(** ** Registration and set-up, again *)

Section RegistrationProperties.

Lemma map_set_twice {V : Type} (k : string) (v v' : V) (m : JSMap V) :
  map_set k v' (map_set k v m) = map_set k v' m.
Proof.
  induction m as [| [k0 v0] rest IH]; simpl.
  - rewrite String.eqb_refl. reflexivity.
  - destruct (String.eqb k0 k) eqn:E; simpl; rewrite E; [reflexivity |].
    rewrite IH. reflexivity.
Qed.

Lemma registerSection_browser (sectionId : string) (config : Config) (st : State) :
  browser (state_of (MTS.registerSection sectionId config st)) = browser st.
Proof.
  destruct (getElementById (document (browser st)) sectionId) as [sec |] eqn:E.
  - rewrite registerSection_found with (sec := sec) by exact E. reflexivity.
  - rewrite registerSection_missing by exact E. reflexivity.
Qed.

Lemma registerSection_visualizer (sectionId : string) (config : Config) (st : State) :
  visualizer (self (state_of (MTS.registerSection sectionId config st))) =
  visualizer (self st).
Proof.
  destruct (getElementById (document (browser st)) sectionId) as [sec |] eqn:E.
  - rewrite registerSection_found with (sec := sec) by exact E. reflexivity.
  - rewrite registerSection_missing by exact E. reflexivity.
Qed.

(** X13: registering a section again replaces its entry and adds none.
    After a second call of [registerSection] for the same id the keys of
    the section map are those after the first call, the entry of the id is
    the one that the second configuration alone would have given, and a
    second call with the same configuration leaves the state of the first. *)
Theorem registerSection_again_replaces :
  forall (sectionId : string) (config config' : Config) (st : State),
    map_keys
      (sectionConfigs
         (self (state_of
                  (MTS.registerSection sectionId config'
                     (state_of (MTS.registerSection sectionId config st)))))) =
    map_keys
      (sectionConfigs (self (state_of (MTS.registerSection sectionId config st)))) /\
    map_get sectionId
      (sectionConfigs
         (self (state_of
                  (MTS.registerSection sectionId config'
                     (state_of (MTS.registerSection sectionId config st)))))) =
    map_get sectionId
      (sectionConfigs (self (state_of (MTS.registerSection sectionId config' st)))) /\
    state_of
      (MTS.registerSection sectionId config
         (state_of (MTS.registerSection sectionId config st))) =
    state_of (MTS.registerSection sectionId config st).
Proof.
  intros sectionId config config' st.
  destruct (getElementById (document (browser st)) sectionId) as [sec |] eqn:E.
  - assert (E1 : getElementById
                   (document
                      (browser (state_of (MTS.registerSection sectionId config st))))
                   sectionId = Some sec)
      by (rewrite registerSection_browser; exact E).
    rewrite (@registerSection_found sectionId config'
               (state_of (MTS.registerSection sectionId config st)) sec E1).
    rewrite (@registerSection_found sectionId config
               (state_of (MTS.registerSection sectionId config st)) sec E1).
    rewrite registerSection_browser, registerSection_visualizer.
    rewrite (@registerSection_found sectionId config st sec E).
    rewrite (@registerSection_found sectionId config' st sec E).
    simpl. rewrite ?map_set_twice, ?map_get_set_same, ?map_keys_set.
    repeat split; reflexivity.
  - rewrite (@registerSection_missing sectionId config st E).
    change (state_of (tt, st, [ConsoleWarn ("Section " ++ sectionId ++ " not found")]))
      with st.
    rewrite ?(@registerSection_missing sectionId config' st E),
      ?(@registerSection_missing sectionId config st E).
    repeat split; reflexivity.
Qed.

(** X14: [createMorphTransition] is silent about a section that is not
    registered: when either id has no entry in the section map it creates
    no timeline, logs nothing and leaves the state as it is.  When both have
    one it creates the one timeline of their entries and logs it. *)
Theorem createMorphTransition_needs_both :
  forall (fromId toId : string) (st : State),
    (map_get fromId (sectionConfigs (self st)) = None \/
     map_get toId (sectionConfigs (self st)) = None ->
     MTS.createMorphTransition fromId toId st = (tt, st, [])) /\
    (forall fromConfig toConfig,
        map_get fromId (sectionConfigs (self st)) = Some fromConfig ->
        map_get toId (sectionConfigs (self st)) = Some toConfig ->
        MTS.createMorphTransition fromId toId st =
        (tt, st,
         [GsapTimeline (MTS.scrollTrigger fromConfig toConfig);
          ConsoleLog ("🔗 Morph transition: " ++ fromId ++ " → " ++ toId)])).
Proof.
  intros fromId toId st. unfold MTS.createMorphTransition. rewrite run_bind.
  change (state_of (getState st)) with st.
  change (fst (fst (getState st))) with st.
  split.
  - intros [H | H]; rewrite H;
      [| destruct (map_get fromId (sectionConfigs (self st)))]; reflexivity.
  - intros fromConfig toConfig Hf Ht. rewrite Hf, Ht. reflexivity.
Qed.

Lemma setupMorphingTransitions_state (st : State) :
  state_of (MTS.setupMorphingTransitions st) = st.
Proof.
  unfold MTS.setupMorphingTransitions. rewrite !state_of_bind.
  change (state_of (getState st)) with st.
  change (fst (fst (getState st))) with st.
  cbv beta zeta. unfold MTS.for_range, forEach.
  match goal with
  | |- state_of (emit _ (state_of (forEach_from ?l 0 _ st))) = st =>
      destruct (@forEach_from_pure Z
                  (MTS.setup_turn (map_keys (sectionConfigs (self st))))
                  (setup_turn_state _) l 0%nat st) as [Hs _]
  end.
  change (state_of (emit ?e ?s)) with s. exact Hs.
Qed.

(** X15: [setupMorphingTransitions] leaves the system as it is and keeps
    no record of what it has set up: a second call emits the events of the
    first again, and so creates every timeline a second time. *)
Theorem setupMorphingTransitions_repeats :
  forall st : State,
    state_of (MTS.setupMorphingTransitions st) = st /\
    events_of (MTS.setupMorphingTransitions (state_of (MTS.setupMorphingTransitions st)))
    = events_of (MTS.setupMorphingTransitions st) /\
    timelines
      (events_of
         ((MTS.setupMorphingTransitions ;; MTS.setupMorphingTransitions)%method st)) =
    timelines (events_of (MTS.setupMorphingTransitions st)) ++
    timelines (events_of (MTS.setupMorphingTransitions st)).
Proof.
  intros st. pose proof (setupMorphingTransitions_state st) as Hs.
  split; [exact Hs |]. split; [rewrite Hs; reflexivity |].
  rewrite events_of_bind, timelines_app, Hs. reflexivity.
Qed.

End RegistrationProperties.

Section RegisteredKeys.

Lemma registerSection_keys (sectionId : string) (config : Config) (st : State) :
  ~ In sectionId (map_keys (sectionConfigs (self st))) ->
  map_keys (sectionConfigs (self (state_of (MTS.registerSection sectionId config st)))) =
  map_keys (sectionConfigs (self st)) ++
  (if present (document (browser st)) sectionId then [sectionId] else []).
Proof.
  intros Hnew. unfold present.
  destruct (getElementById (document (browser st)) sectionId) as [sec |] eqn:E.
  - rewrite registerSection_found with (sec := sec) by exact E. simpl.
    rewrite map_keys_set.
    destruct (map_get sectionId (sectionConfigs (self st))) eqn:Eg; [| reflexivity].
    exfalso. apply Hnew. apply map_get_In_keys. congruence.
  - rewrite registerSection_missing by exact E. simpl. rewrite app_nil_r. reflexivity.
Qed.

Lemma register_all_browser (regs : list (string * Config)) (st : State) :
  browser (register_all regs st) = browser st.
Proof.
  revert st. induction regs as [| r rest IH]; intros st; simpl; [reflexivity |].
  unfold register_all in IH. rewrite IH. apply registerSection_browser.
Qed.

Lemma register_all_visualizer (regs : list (string * Config)) (st : State) :
  visualizer (self (register_all regs st)) = visualizer (self st).
Proof.
  revert st. induction regs as [| r rest IH]; intros st; simpl; [reflexivity |].
  unfold register_all in IH. rewrite IH. apply registerSection_visualizer.
Qed.

Lemma register_all_keys (regs : list (string * Config)) (st : State) :
  NoDup (map fst regs) ->
  (forall k, In k (map fst regs) -> ~ In k (map_keys (sectionConfigs (self st)))) ->
  map_keys (sectionConfigs (self (register_all regs st))) =
  map_keys (sectionConfigs (self st)) ++
  filter (present (document (browser st))) (map fst regs).
Proof.
  revert st. induction regs as [| [k c] rest IH]; intros st Hnd Hfresh; simpl.
  - rewrite app_nil_r. reflexivity.
  - simpl in Hnd. inversion Hnd as [| ? ? Hk Hnd']; subst.
    unfold register_all in IH. rewrite IH.
    + rewrite registerSection_browser, registerSection_keys
        by (apply Hfresh; left; reflexivity).
      rewrite <- app_assoc. f_equal.
      destruct (present (document (browser st)) k); reflexivity.
    + exact Hnd'.
    + intros k' Hk'. rewrite registerSection_keys by (apply Hfresh; left; reflexivity).
      intros Hin. apply in_app_or in Hin. destruct Hin as [Hin | Hin].
      * apply (Hfresh k'); [right; exact Hk' | exact Hin].
      * destruct (present (document (browser st)) k); [| contradiction].
        destruct Hin as [<- | []]. apply Hk. exact Hk'.
Qed.

(** X16: a run of calls of [registerSection] for ids that differ, on a
    system in which none of them is registered, adds to the keys of the
    section map the ids that the document has an element for, in the order
    of the calls, and leaves out the others; the visualizer of the system
    and the browser stay as they are. *)
Theorem register_all_present_sections :
  forall (regs : list (string * Config)) (st : State),
    NoDup (map fst regs) ->
    (forall k, In k (map fst regs) -> ~ In k (map_keys (sectionConfigs (self st)))) ->
    map_keys (sectionConfigs (self (register_all regs st))) =
      map_keys (sectionConfigs (self st)) ++
      filter (present (document (browser st))) (map fst regs) /\
    visualizer (self (register_all regs st)) = visualizer (self st) /\
    browser (register_all regs st) = browser st.
Proof.
  intros regs st Hnd Hfresh.
  split; [apply register_all_keys; assumption |].
  split; [apply register_all_visualizer | apply register_all_browser].
Qed.

Lemma pageSections_NoDup : NoDup (map fst pageSections).
Proof.
  simpl. repeat constructor; simpl; intros H;
    repeat match goal with
           | H : _ \/ _ |- _ => destruct H as [H | H]
           | H : False |- _ => contradiction
           end;
    discriminate H.
Qed.

(** On the sample page, which has no research and no contact section, the
    registrations of the application leave the hero and the capabilities
    sections registered. *)
Lemma register_all_present_sections_witness :
  map_keys (sectionConfigs (self (register_all pageSections Sample.state0))) =
  ["hero"%string; "capabilities"%string].
Proof.
  assert (Hfresh : forall k,
             In k (map fst pageSections) ->
             ~ In k (map_keys (sectionConfigs (self Sample.state0))))
    by (intros k _ []).
  exact (proj1 (@register_all_present_sections pageSections Sample.state0
                  pageSections_NoDup Hfresh)).
Defined.

End RegisteredKeys.

Section TextScrollOff.
Local Open Scope R_scope.

Lemma setupTextScrollOff_eval (st : State) :
  events_of (MTS.setupTextScrollOff st) =
    map (fun el => GsapTo (mkTextTrigger el "top center" "bottom top" 1))
      (documentQuerySelectorAll (document (browser st))
         "h1, h2.section-title, .hero-lede, .eyebrow") ++
    [ConsoleLog "📜 Text scroll-off animations configured"] /\
  state_of (MTS.setupTextScrollOff st) = st.
Proof.
  unfold MTS.setupTextScrollOff.
  rewrite !events_of_bind, !state_of_bind.
  change (state_of (getState st)) with st.
  change (fst (fst (getState st))) with st.
  change (events_of (getState st)) with (@nil Event).
  cbv beta zeta. unfold forEach.
  destruct (@forEach_from_single Element
              (fun el => GsapTo (mkTextTrigger el "top center" "bottom top" 1))
              (fun el _ => emit (GsapTo (mkTextTrigger el "top center" "bottom top" 1)))
              0%nat (fun a i s _ => eq_refl)
              (documentQuerySelectorAll (document (browser st))
                 "h1, h2.section-title, .hero-lede, .eyebrow")
              0%nat st (Nat.le_0_l 0)) as [He Hs].
  rewrite He, Hs. split; reflexivity.
Qed.

(** X17: [setupTextScrollOff] creates one scroll tween for each element
    that [h1, h2.section-title, .hero-lede, .eyebrow] matches in the
    document, in document order, each with the element itself as trigger,
    from [top center] to [bottom top] with a scrub of [1]; then it logs
    once.  With no such element it only logs.  It leaves the system as it
    is and keeps no record of the tweens: a second call creates a second
    tween on every element. *)
Theorem setupTextScrollOff_tweens :
  forall st : State,
    events_of (MTS.setupTextScrollOff st) =
      map (fun el => GsapTo (mkTextTrigger el "top center" "bottom top" 1))
        (documentQuerySelectorAll (document (browser st))
           "h1, h2.section-title, .hero-lede, .eyebrow") ++
      [ConsoleLog "📜 Text scroll-off animations configured"] /\
    state_of (MTS.setupTextScrollOff st) = st /\
    events_of ((MTS.setupTextScrollOff ;; MTS.setupTextScrollOff)%method st) =
      events_of (MTS.setupTextScrollOff st) ++ events_of (MTS.setupTextScrollOff st).
Proof.
  intros st. destruct (setupTextScrollOff_eval st) as [He Hs].
  split; [exact He |]. split; [exact Hs |].
  rewrite events_of_bind, Hs. reflexivity.
Qed.

End TextScrollOff.

(** ** A successful initialization *)

Section InitializationSuccess.

Ltac run_statement := eapply tbind_eval; [reflexivity | cbv beta].

Lemma state_eta (s : State) : mkState (self s) (browser s) = s.
Proof. destruct s; reflexivity. Qed.

Lemma onMorphingSystem_eval (m : M unit) (qv : option Visualizer)
    (s : MorphingTransitionSystem) (init : bool)
    (ctor : string -> Completion Visualizer) (br : Browser) :
  App.onMorphingSystem m
    (App.mkAppState (App.mkApplication qv (Some s) init) (App.mkPage ctor br)) =
  (Normal tt,
   App.mkAppState
     (App.mkApplication qv (Some (self (state_of (m (mkState s br))))) init)
     (App.mkPage ctor (browser (state_of (m (mkState s br))))),
   events_of (m (mkState s br))).
Proof. reflexivity. Qed.

Lemma registerSections_eval (qv : option Visualizer) (s : MorphingTransitionSystem)
    (init : bool) (ctor : string -> Completion Visualizer) (br : Browser) :
  App.registerSections
    (App.mkAppState (App.mkApplication qv (Some s) init) (App.mkPage ctor br)) =
  (Normal tt,
   App.mkAppState
     (App.mkApplication qv (Some (self (register_all pageSections (mkState s br)))) init)
     (App.mkPage ctor (browser (register_all pageSections (mkState s br)))),
   register_events pageSections (mkState s br) ++
   [LoggerInfo "📝 Sections registered with morphing system"]).
Proof.
  unfold App.registerSections.
  eapply eq_trans.
  - do 4 (eapply tbind_eval; [apply onMorphingSystem_eval | cbv beta]).
    reflexivity.
  - rewrite !state_eta. unfold register_all, register_events, pageSections.
    simpl fold_left. cbn [fst snd]. rewrite <- !app_assoc. reflexivity.
Qed.

(** The system that [initialize] leaves on a page with browser [br] when
    the constructor gave the visualizer [v], and the events of a successful
    call. *)
Lemma App_initialize_body_success (qv : option Visualizer)
    (ms : option MorphingTransitionSystem) (init : bool)
    (ctor : string -> Completion Visualizer) (br : Browser) (v : Visualizer) :
  ctor "quantum-background"%string = Normal v ->
  gl v = true ->
  App.initialize_body
    (App.mkAppState (App.mkApplication qv ms init) (App.mkPage ctor br)) =
  (Normal tt,
   App.mkAppState
     (App.mkApplication (Some v) (Some (self (initial_system v br))) true)
     (App.mkPage ctor (browser (initial_system v br))),
   success_events v br).
Proof.
  intros Hnew Hgl. unfold App.initialize_body.
  eapply eq_trans.
  - run_statement. run_statement.
    eapply tbind_eval; [cbn [App.page App.newWorkingQuantumVisualizer];
                        rewrite Hnew; reflexivity | cbv beta].
    run_statement. run_statement.
    eapply tbind_eval; [rewrite Hgl; reflexivity | cbv beta].
    run_statement. run_statement. run_statement. run_statement. run_statement.
    run_statement.
    eapply tbind_eval; [apply registerSections_eval | cbv beta].
    eapply tbind_eval; [apply onMorphingSystem_eval | cbv beta].
    eapply tbind_eval; [apply onMorphingSystem_eval | cbv beta].
    run_statement. run_statement. run_statement. run_statement.
    reflexivity.
  - rewrite !state_eta.
    rewrite !setupMorphingTransitions_state.
    rewrite !(proj2 (setupTextScrollOff_eval _)).
    reflexivity.
Qed.

Lemma try_catch_normal_eval {S : Type} (body : T S unit)
    (handler : string -> T S unit) (st st1 : S) (ev1 : list Event) :
  body st = (Normal tt, st1, ev1) ->
  try_catch body handler st = (Normal tt, st1, ev1).
Proof. intros Hb. unfold try_catch. rewrite Hb. reflexivity. Qed.

Lemma timelines_registerSection (sectionId : string) (config : Config) (st : State) :
  timelines (events_of (MTS.registerSection sectionId config st)) = [].
Proof.
  unfold MTS.registerSection. rewrite events_of_bind.
  change (state_of (getState st)) with st.
  change (fst (fst (getState st))) with st.
  destruct (getElementById (document (browser st)) sectionId); reflexivity.
Qed.

Lemma timelines_register_events (regs : list (string * Config)) (st : State) :
  timelines (register_events regs st) = [].
Proof.
  revert st. induction regs as [| r rest IH]; intros st; simpl; [reflexivity |].
  rewrite timelines_app, timelines_registerSection, IH. reflexivity.
Qed.

Lemma timelines_setupTextScrollOff (st : State) :
  timelines (events_of (MTS.setupTextScrollOff st)) = [].
Proof.
  rewrite (proj1 (setupTextScrollOff_eval st)), timelines_app.
  induction (documentQuerySelectorAll (document (browser st))
               "h1, h2.section-title, .hero-lede, .eyebrow") as [| a rest IH];
    [reflexivity | exact IH].
Qed.

Lemma initial_system_NoDup (v : Visualizer) (br : Browser) :
  NoDup (map_keys (sectionConfigs (self (initial_system v br)))).
Proof. apply register_all_NoDup. simpl. constructor. Qed.

(** X18: on an application that is not initialized, when the constructor
    of the visualizer returns an object with a WebGL context, [initialize]
    completes normally and leaves the application initialized:
    [quantumVisualizer] is the new object, [morphingSystem] is a system on
    that same object, and the browser is as it was.  The sections
    registered are those of hero, capabilities, research and contact that
    the document has, in this order; the timelines created join the
    neighbours among them; [clearSeasEnhancedReady] is dispatched, last. *)
Theorem initialize_succeeds_with_webgl :
  forall (qv : option Visualizer) (ms : option MorphingTransitionSystem)
         (ctor : string -> Completion Visualizer) (br : Browser) (v : Visualizer),
    ctor "quantum-background"%string = Normal v ->
    gl v = true ->
    App.initialize
      (App.mkAppState (App.mkApplication qv ms false) (App.mkPage ctor br)) =
    (Normal tt,
     App.mkAppState
       (App.mkApplication (Some v) (Some (self (initial_system v br))) true)
       (App.mkPage ctor br),
     success_events v br) /\
    visualizer (self (initial_system v br)) = Some v /\
    map_keys (sectionConfigs (self (initial_system v br))) =
      filter (present (document br))
        ["hero"%string; "capabilities"%string; "research"%string; "contact"%string] /\
    timelines (success_events v br) =
      map (fun ft => MTS.scrollTrigger (fst ft) (snd ft))
        (consecutive (map snd (sectionConfigs (self (initial_system v br))))) /\
    last (success_events v br) (LoggerInfo "") = DispatchEvent "clearSeasEnhancedReady".
Proof.
  intros qv ms ctor br v Hnew Hgl.
  assert (Hbr : browser (initial_system v br) = br)
    by (unfold initial_system; rewrite register_all_browser; reflexivity).
  split; [| split; [| split; [| split]]].
  - unfold App.initialize. eapply eq_trans.
    + run_statement.
      match goal with
      | |- (if ?b then _ else _) _ = _ => change b with false
      end.
      cbv iota. apply try_catch_normal_eval.
      apply (@App_initialize_body_success qv ms false ctor br v Hnew Hgl).
    + rewrite Hbr. reflexivity.
  - unfold initial_system. rewrite register_all_visualizer. reflexivity.
  - unfold initial_system.
    rewrite (@register_all_keys pageSections (mkState (mkSystem (Some v) []) br)
               pageSections_NoDup).
    + reflexivity.
    + intros k _ [].
  - unfold success_events.
    rewrite !timelines_app.
    rewrite timelines_register_events, timelines_setupTextScrollOff.
    rewrite (@timelines_setupMorphingTransitions _ (initial_system_NoDup v br)).
    cbn [timelines flat_map app]. rewrite ?app_nil_r. reflexivity.
  - unfold success_events. rewrite !app_assoc.
    match goal with
    | |- last (?l ++ [?a; ?b; ?c]) _ = _ =>
        change (l ++ [a; b; c]) with (l ++ [a; b] ++ [c]);
        rewrite app_assoc; apply last_last
    end.
Qed.

Lemma initialize_succeeds_with_webgl_witness :
  fst (App.initialize (fst (App.constructor Sample.appPage))) =
  (Normal tt,
   App.mkAppState
     (App.mkApplication (Some Sample.workingVisualizer)
        (Some (self (initial_system Sample.workingVisualizer Sample.browser0))) true)
     Sample.appPage) /\
  map_keys
    (sectionConfigs (self (initial_system Sample.workingVisualizer Sample.browser0))) =
  ["hero"%string; "capabilities"%string].
Proof.
  destruct (@initialize_succeeds_with_webgl None None
              (fun _ => Normal Sample.workingVisualizer) Sample.browser0
              Sample.workingVisualizer eq_refl eq_refl) as (Hrun & _ & Hkeys & _).
  split.
  - exact (f_equal fst Hrun).
  - exact Hkeys.
Defined.

End InitializationSuccess.

(** ** Failures during initialization, and the render loop *)

Section InitializationFailure.

Ltac run_statement := eapply tbind_eval; [reflexivity | cbv beta].

Ltac not_initialized :=
  match goal with
  | |- (if ?b then _ else _) _ = _ => change b with false; cbv iota
  end.

Lemma App_initialize_constructor_throws (st : App.AppState) (e : string) :
  App.isInitialized (App.app st) = false ->
  App.newWorkingQuantumVisualizer (App.page st) "quantum-background" = Throw e ->
  App.initialize st =
  (Normal tt, st,
   [LoggerInfo "🌌 Creating WorkingQuantumVisualizer...";
    NewVisualizer "quantum-background"] ++ failure_report e).
Proof.
  destruct st as [[qv ms init] [ctor br]].
  cbn [App.app App.page App.isInitialized App.newWorkingQuantumVisualizer].
  intros -> Hnew. unfold App.initialize. eapply eq_trans.
  - run_statement. not_initialized.
    eapply try_catch_eval.
    + unfold App.initialize_body. run_statement. run_statement.
      eapply tbind_throw_eval.
      cbn [App.page App.newWorkingQuantumVisualizer]. rewrite Hnew. reflexivity.
    + reflexivity.
  - reflexivity.
Qed.

Lemma AppDetailed_initialize_constructor_throws (C : Type)
    (st : AppDetailed.AppState C) (e : string) :
  AppDetailed.isInitialized (AppDetailed.app st) = false ->
  AppDetailed.newWorkingQuantumVisualizer (AppDetailed.page st) "quantum-background" =
    Throw e ->
  AppDetailed.initialize st =
  (Normal tt, st,
   [LoggerInfo "🌌 Creating WorkingQuantumVisualizer...";
    NewVisualizer "quantum-background"] ++ failure_report e).
Proof.
  destruct st as [[qv ch init] [ctor nd ci]].
  cbn [AppDetailed.app AppDetailed.page AppDetailed.isInitialized
       AppDetailed.newWorkingQuantumVisualizer].
  intros -> Hnew. unfold AppDetailed.initialize. eapply eq_trans.
  - run_statement. not_initialized.
    eapply try_catch_eval.
    + unfold AppDetailed.initialize_body. run_statement. run_statement.
      eapply tbind_throw_eval.
      cbn [AppDetailed.page AppDetailed.newWorkingQuantumVisualizer].
      rewrite Hnew. reflexivity.
    + reflexivity.
  - reflexivity.
Qed.

(** X19: an exception thrown by the constructor of the visualizer does not
    leave [initialize]: on an application that is not initialized the call
    completes normally, the error goes to the logger and to the console,
    and the application is exactly what it was, [quantumVisualizer]
    included: the assignment of line 33 has not taken place.  A second call
    therefore does the same again.  Both variants behave so. *)
Theorem initialize_catches_constructor_error :
  (forall (st : App.AppState) (e : string),
      App.isInitialized (App.app st) = false ->
      App.newWorkingQuantumVisualizer (App.page st) "quantum-background" = Throw e ->
      App.initialize st =
        (Normal tt, st,
         [LoggerInfo "🌌 Creating WorkingQuantumVisualizer...";
          NewVisualizer "quantum-background"] ++ failure_report e) /\
      App.initialize (snd (fst (App.initialize st))) = App.initialize st) /\
  (forall (C : Type) (st : AppDetailed.AppState C) (e : string),
      AppDetailed.isInitialized (AppDetailed.app st) = false ->
      AppDetailed.newWorkingQuantumVisualizer (AppDetailed.page st)
        "quantum-background" = Throw e ->
      AppDetailed.initialize st =
        (Normal tt, st,
         [LoggerInfo "🌌 Creating WorkingQuantumVisualizer...";
          NewVisualizer "quantum-background"] ++ failure_report e) /\
      AppDetailed.initialize (snd (fst (AppDetailed.initialize st))) =
        AppDetailed.initialize st).
Proof.
  split.
  - intros st e Hinit Hnew.
    rewrite (@App_initialize_constructor_throws st e Hinit Hnew).
    split; [reflexivity |].
    cbn [fst snd]. apply App_initialize_constructor_throws; assumption.
  - intros C st e Hinit Hnew.
    rewrite (@AppDetailed_initialize_constructor_throws C st e Hinit Hnew).
    split; [reflexivity |].
    cbn [fst snd]. apply AppDetailed_initialize_constructor_throws; assumption.
Qed.

(** On the sample page without canvas, the new application is left as the
    constructor made it. *)
Lemma initialize_catches_constructor_error_witness :
  snd (fst (App.initialize (fst (App.constructor Sample.appPageNoCanvas)))) =
  fst (App.constructor Sample.appPageNoCanvas).
Proof.
  rewrite (proj1 (proj1 initialize_catches_constructor_error
                    (fst (App.constructor Sample.appPageNoCanvas))
                    "Canvas quantum-background not found"%string eq_refl eq_refl)).
  reflexivity.
Defined.

(** The [try] block of the simplified variant up to the construction of
    the choreographer. *)
Lemma AppDetailed_body_until_choreographer (C : Type)
    (qv : option Visualizer) (ch : option C) (init : bool)
    (p : AppDetailed.Page C) (v : Visualizer)
    (k : Visualizer -> T (AppDetailed.AppState C) unit)
    (r : Completion unit) (st2 : AppDetailed.AppState C) (ev2 : list Event) :
  AppDetailed.newWorkingQuantumVisualizer p "quantum-background" = Normal v ->
  gl v = true ->
  k v (AppDetailed.mkAppState (AppDetailed.mkApplication (Some v) ch init) p) =
    (r, st2, ev2) ->
  (temit (LoggerInfo "🌌 Creating WorkingQuantumVisualizer...") ;;
   temit (NewVisualizer "quantum-background") ;;
   v <- (fun st =>
           (AppDetailed.newWorkingQuantumVisualizer (AppDetailed.page st)
              "quantum-background"%string, st, [])) ;;
   a <- @AppDetailed.getApp C ;;
   AppDetailed.putApp
     (AppDetailed.mkApplication (Some v) (AppDetailed.detailedScrollChoreographer a)
        (AppDetailed.isInitialized a)) ;;
   (if negb (gl v) then throw "Failed to create WebGL context" else tret tt) ;;
   temit (LoggerInfo "✅ WorkingQuantumVisualizer created with WebGL context") ;;
   @AppDetailed.startRenderLoop C ;;
   temit (LoggerInfo "✅ Render loop started") ;;
   temit (LoggerInfo "🎬 Creating DetailedScrollChoreographer...") ;;
   k v)%throwing
    (AppDetailed.mkAppState (AppDetailed.mkApplication qv ch init) p) =
  (r, st2, detailed_prefix ++ ev2).
Proof.
  intros Hnew Hgl Hk. eapply eq_trans.
  - run_statement. run_statement.
    eapply tbind_eval; [cbn [AppDetailed.page]; rewrite Hnew; reflexivity | cbv beta].
    run_statement. run_statement.
    eapply tbind_eval; [rewrite Hgl; reflexivity | cbv beta].
    run_statement. run_statement. run_statement. run_statement.
    exact Hk.
  - reflexivity.
Qed.

Lemma AppDetailed_choreographer_constructor_throws (C : Type)
    (st : AppDetailed.AppState C) (v : Visualizer) (e : string) (evc : list Event) :
  AppDetailed.isInitialized (AppDetailed.app st) = false ->
  AppDetailed.newWorkingQuantumVisualizer (AppDetailed.page st) "quantum-background" =
    Normal v ->
  gl v = true ->
  AppDetailed.newDetailedScrollChoreographer (AppDetailed.page st) v = (Throw e, evc) ->
  AppDetailed.initialize st =
  (Normal tt,
   AppDetailed.mkAppState
     (AppDetailed.mkApplication (Some v)
        (AppDetailed.detailedScrollChoreographer (AppDetailed.app st)) false)
     (AppDetailed.page st),
   detailed_prefix ++ evc ++ failure_report e).
Proof.
  destruct st as [[qv ch init] p].
  cbn [AppDetailed.app AppDetailed.page AppDetailed.isInitialized
       AppDetailed.detailedScrollChoreographer].
  intros -> Hnew Hgl Hc. unfold AppDetailed.initialize. eapply eq_trans.
  - run_statement. not_initialized.
    eapply try_catch_eval.
    + unfold AppDetailed.initialize_body.
      eapply AppDetailed_body_until_choreographer; [exact Hnew | exact Hgl |].
      eapply tbind_throw_eval. cbn [AppDetailed.page]. rewrite Hc. reflexivity.
    + reflexivity.
  - cbn [app]. rewrite <- ?app_assoc. reflexivity.
Qed.

Lemma AppDetailed_choreographer_initialize_throws (C : Type)
    (st : AppDetailed.AppState C) (v : Visualizer) (c : C) (e : string)
    (evc evi : list Event) :
  AppDetailed.isInitialized (AppDetailed.app st) = false ->
  AppDetailed.newWorkingQuantumVisualizer (AppDetailed.page st) "quantum-background" =
    Normal v ->
  gl v = true ->
  AppDetailed.newDetailedScrollChoreographer (AppDetailed.page st) v = (Normal c, evc) ->
  AppDetailed.choreographerInitialize (AppDetailed.page st) c = (Throw e, evi) ->
  AppDetailed.initialize st =
  (Normal tt,
   AppDetailed.mkAppState (AppDetailed.mkApplication (Some v) (Some c) false)
     (AppDetailed.page st),
   detailed_prefix ++ evc ++ evi ++ failure_report e).
Proof.
  destruct st as [[qv ch init] p].
  cbn [AppDetailed.app AppDetailed.page AppDetailed.isInitialized].
  intros -> Hnew Hgl Hc Hi. unfold AppDetailed.initialize. eapply eq_trans.
  - run_statement. not_initialized.
    eapply try_catch_eval.
    + unfold AppDetailed.initialize_body.
      eapply AppDetailed_body_until_choreographer; [exact Hnew | exact Hgl |].
      eapply tbind_eval; [cbn [AppDetailed.page]; rewrite Hc; reflexivity | cbv beta].
      run_statement. run_statement.
      eapply tbind_throw_eval. cbn [AppDetailed.page]. rewrite Hi. reflexivity.
    + reflexivity.
  - cbn [app]. rewrite <- ?app_assoc. reflexivity.
Qed.

(** X20: in the simplified variant the render loop is started before the
    choreographer is built, and a failure of the choreographer does not
    undo it.  When the constructor of the choreographer throws,
    [initialize] completes normally with [isInitialized] false, the
    visualizer assigned and the choreographer field untouched; the first
    frame has been requested.  A second call then goes the same way and
    requests a frame once more.  When [initialize] of the choreographer
    throws, the field holds the choreographer that was constructed, and
    [isInitialized] is false as well. *)
Theorem initialize_choreographer_failure :
  forall (C : Type) (st : AppDetailed.AppState C) (v : Visualizer),
    AppDetailed.isInitialized (AppDetailed.app st) = false ->
    AppDetailed.newWorkingQuantumVisualizer (AppDetailed.page st)
      "quantum-background" = Normal v ->
    gl v = true ->
    (forall (e : string) (evc : list Event),
        AppDetailed.newDetailedScrollChoreographer (AppDetailed.page st) v =
          (Throw e, evc) ->
        let st' :=
          AppDetailed.mkAppState
            (AppDetailed.mkApplication (Some v)
               (AppDetailed.detailedScrollChoreographer (AppDetailed.app st)) false)
            (AppDetailed.page st) in
        AppDetailed.initialize st =
          (Normal tt, st', detailed_prefix ++ evc ++ failure_report e) /\
        AppDetailed.initialize st' =
          (Normal tt, st', detailed_prefix ++ evc ++ failure_report e)) /\
    (forall (c : C) (e : string) (evc evi : list Event),
        AppDetailed.newDetailedScrollChoreographer (AppDetailed.page st) v =
          (Normal c, evc) ->
        AppDetailed.choreographerInitialize (AppDetailed.page st) c = (Throw e, evi) ->
        AppDetailed.initialize st =
          (Normal tt,
           AppDetailed.mkAppState (AppDetailed.mkApplication (Some v) (Some c) false)
             (AppDetailed.page st),
           detailed_prefix ++ evc ++ evi ++ failure_report e)) /\
    In RequestAnimationFrame detailed_prefix.
Proof.
  intros C st v Hinit Hnew Hgl. split; [| split].
  - intros e evc Hc st'. split.
    + apply AppDetailed_choreographer_constructor_throws; assumption.
    + apply (@AppDetailed_choreographer_constructor_throws C st' v e evc);
        [reflexivity | exact Hnew | exact Hgl | exact Hc].
  - intros c e evc evi Hc Hi.
    apply AppDetailed_choreographer_initialize_throws; assumption.
  - unfold detailed_prefix. simpl. tauto.
Qed.

(** On the page whose choreographer cannot be constructed, the new
    application is left not initialized with its visualizer assigned; on
    the page whose choreography cannot be initialized, the choreographer
    stays in its field. *)
Lemma initialize_choreographer_failure_witness :
  fst (AppDetailed.initialize
         (fst (AppDetailed.constructor Sample.detailedPageNoChoreographer))) =
    (Normal tt,
     AppDetailed.mkAppState
       (AppDetailed.mkApplication (Some Sample.workingVisualizer) None false)
       Sample.detailedPageNoChoreographer) /\
  fst (AppDetailed.initialize
         (fst (AppDetailed.constructor Sample.detailedPageNoChoreography))) =
    (Normal tt,
     AppDetailed.mkAppState
       (AppDetailed.mkApplication (Some Sample.workingVisualizer) (Some 0%nat) false)
       Sample.detailedPageNoChoreography).
Proof.
  split.
  - exact (f_equal fst
             (proj1 (proj1 (@initialize_choreographer_failure nat
                              (fst (AppDetailed.constructor
                                      Sample.detailedPageNoChoreographer))
                              Sample.workingVisualizer eq_refl eq_refl eq_refl)
                       "ScrollTrigger is not defined"%string [] eq_refl))).
  - exact (f_equal fst
             (proj1 (proj2 (@initialize_choreographer_failure nat
                              (fst (AppDetailed.constructor
                                      Sample.detailedPageNoChoreography))
                              Sample.workingVisualizer eq_refl eq_refl eq_refl))
                0%nat "gsap is not defined"%string [] [] eq_refl eq_refl)).
Defined.

Lemma AppDetailed_initialize_success (C : Type)
    (st : AppDetailed.AppState C) (v : Visualizer) (c c' : C)
    (evc evi : list Event) :
  AppDetailed.isInitialized (AppDetailed.app st) = false ->
  AppDetailed.newWorkingQuantumVisualizer (AppDetailed.page st) "quantum-background" =
    Normal v ->
  gl v = true ->
  AppDetailed.newDetailedScrollChoreographer (AppDetailed.page st) v = (Normal c, evc) ->
  AppDetailed.choreographerInitialize (AppDetailed.page st) c = (Normal c', evi) ->
  AppDetailed.initialize st =
  (Normal tt,
   AppDetailed.mkAppState (AppDetailed.mkApplication (Some v) (Some c') true)
     (AppDetailed.page st),
   detailed_prefix ++ evc ++ evi ++
   [LoggerInfo "✅ Scroll choreography initialized";
    LoggerInfo "🎉 Application initialized successfully";
    DispatchEvent "clearSeasEnhancedReady"]).
Proof.
  destruct st as [[qv ch init] p].
  cbn [AppDetailed.app AppDetailed.page AppDetailed.isInitialized].
  intros -> Hnew Hgl Hc Hi. unfold AppDetailed.initialize. eapply eq_trans.
  - run_statement. not_initialized.
    apply try_catch_normal_eval.
    unfold AppDetailed.initialize_body.
    eapply AppDetailed_body_until_choreographer; [exact Hnew | exact Hgl |].
    eapply tbind_eval; [cbn [AppDetailed.page]; rewrite Hc; reflexivity | cbv beta].
    run_statement. run_statement.
    eapply tbind_eval; [cbn [AppDetailed.page]; rewrite Hi; reflexivity | cbv beta].
    run_statement. run_statement. run_statement. run_statement. run_statement.
    run_statement. reflexivity.
  - cbn [app]. rewrite <- ?app_assoc. reflexivity.
Qed.

(** X21: in the simplified variant, when the visualizer has a WebGL context
    and both the constructor and [initialize] of the choreographer return,
    [initialize] on an application that is not initialized completes
    normally with [isInitialized] true, the visualizer and the initialized
    choreographer in their fields, and [clearSeasEnhancedReady] dispatched
    after everything else.  Every later call only logs the warning and
    leaves this state as it is. *)
Theorem initialize_detailed_succeeds :
  forall (C : Type) (st : AppDetailed.AppState C) (v : Visualizer) (c c' : C)
         (evc evi : list Event),
    AppDetailed.isInitialized (AppDetailed.app st) = false ->
    AppDetailed.newWorkingQuantumVisualizer (AppDetailed.page st)
      "quantum-background" = Normal v ->
    gl v = true ->
    AppDetailed.newDetailedScrollChoreographer (AppDetailed.page st) v =
      (Normal c, evc) ->
    AppDetailed.choreographerInitialize (AppDetailed.page st) c = (Normal c', evi) ->
    let st' :=
      AppDetailed.mkAppState (AppDetailed.mkApplication (Some v) (Some c') true)
        (AppDetailed.page st) in
    AppDetailed.initialize st =
      (Normal tt, st',
       detailed_prefix ++ evc ++ evi ++
       [LoggerInfo "✅ Scroll choreography initialized";
        LoggerInfo "🎉 Application initialized successfully";
        DispatchEvent "clearSeasEnhancedReady"]) /\
    AppDetailed.initialize st' = (Normal tt, st', [LoggerWarn "Already initialized"]).
Proof.
  intros C st v c c' evc evi Hinit Hnew Hgl Hc Hi st'. split.
  - apply (@AppDetailed_initialize_success C st v c c' evc evi); assumption.
  - apply AppDetailed_initialize_again. reflexivity.
Qed.

(** On the sample page of the simplified variant the new application is
    initialized by its first [initialize], with a choreographer whose
    [initialize] has run once. *)
Lemma initialize_detailed_succeeds_witness :
  fst (AppDetailed.initialize (fst (AppDetailed.constructor Sample.detailedPage))) =
    (Normal tt,
     AppDetailed.mkAppState
       (AppDetailed.mkApplication (Some Sample.workingVisualizer) (Some 1%nat) true)
       Sample.detailedPage).
Proof.
  exact (f_equal fst
           (proj1 (@initialize_detailed_succeeds nat
                     (fst (AppDetailed.constructor Sample.detailedPage))
                     Sample.workingVisualizer 0%nat 1%nat [] []
                     eq_refl eq_refl eq_refl eq_refl eq_refl))).
Defined.

Lemma App_render_eval (st : App.AppState) :
  App.render st =
  (Normal tt, st, frame_events (App.quantumVisualizer (App.app st))).
Proof. destruct st as [[[v |] ms init] p]; reflexivity. Qed.

Lemma AppDetailed_render_eval (C : Type) (st : AppDetailed.AppState C) :
  AppDetailed.render st =
  (Normal tt, st, frame_events (AppDetailed.quantumVisualizer (AppDetailed.app st))).
Proof. destruct st as [[[v |] ch init] p]; reflexivity. Qed.

(** X22: the render loop has no exit and no effect on the fields of the
    application.  In both variants every frame leaves the application as it
    is and ends by requesting the next frame; [render] of the visualizer is
    called in a frame exactly when [quantumVisualizer] is set.  So [n]
    frames in a row give [n] times the events of one frame, for every
    [n]. *)
Theorem render_loop_frames :
  (forall (n : nat) (st : App.AppState),
      frames App.render n st =
      (st, List.concat (repeat (frame_events (App.quantumVisualizer (App.app st))) n))) /\
  (forall (C : Type) (n : nat) (st : AppDetailed.AppState C),
      frames (@AppDetailed.render C) n st =
      (st,
       List.concat
         (repeat (frame_events (AppDetailed.quantumVisualizer (AppDetailed.app st)))
            n))).
Proof.
  split.
  - intros n st. induction n as [| n IH]; [reflexivity |].
    cbn [frames]. rewrite App_render_eval, IH. reflexivity.
  - intros C n st. induction n as [| n IH]; [reflexivity |].
    cbn [frames]. rewrite AppDetailed_render_eval, IH. reflexivity.
Qed.

End InitializationFailure.
